(** * seabirds: [Code/build_train_xvalidate_ANN.py]

    A shallow embedding of the cross-validation driver: configuration
    checks, file discovery, window-id extraction, the leave-one-bird-out
    schedule, the metrics aggregation and the cross-window summary table.

    Conventions of the embedding.
    - Python [str] is [string] (a sequence of 8-bit characters; paths are
      taken to be ASCII, so [\d] is ['0'..'9'] and the order on strings is
      the code-point order Python uses).
    - Floating-point numbers are exact rationals [Qc]; [None] in [num]
      stands for a non-finite float ([nan], [inf]), which only a division by
      zero or a mean of nothing produces here.  Rounding is not modelled.
    - Exceptions are the [Raise] results of the monad [M]; the console, the
      file system and the worker pool are seen through the log of [event]s
      that [M] threads along. *)

From Stdlib Require Import Ascii String QArith Qcanon.
From stdpp Require Import base strings list gmap sorting.

Open Scope string_scope.
Open Scope list_scope.

(** ** Strings *)

Module Str.

(** [s.startswith(p)] *)
Fixpoint startswith (p s : string) : bool :=
  match p, s with
  | "", _ => true
  | String a p', String b s' => bool_decide (a = b) && startswith p' s'
  | String _ _, "" => false
  end.

(** [s.endswith(p)]: some tail of [s] is [p] *)
Fixpoint endswith (p s : string) : bool :=
  bool_decide (s = p) ||
  match s with
  | "" => false
  | String _ s' => endswith p s'
  end.

(** [s[n:]] *)
Fixpoint drop (n : nat) (s : string) : string :=
  match n, s with
  | O, _ => s
  | S n', String _ s' => drop n' s'
  | S _, "" => ""
  end.

(** [c in s] *)
Fixpoint mem (c : ascii) (s : string) : bool :=
  match s with
  | "" => false
  | String a s' => bool_decide (a = c) || mem c s'
  end.

(** the characters of [s] are all [c]: [s == c * len(s)] *)
Fixpoint all_eq (c : ascii) (s : string) : bool :=
  match s with
  | "" => true
  | String a s' => bool_decide (a = c) && all_eq c s'
  end.

(** [s.rstrip(c)] for a single character [c]: the trailing run of [c] is
    cut off *)
Fixpoint rstrip (c : ascii) (s : string) : string :=
  match s with
  | "" => ""
  | String a s' => if all_eq c s then "" else String a (rstrip c s')
  end.

Definition is_digit (c : ascii) : bool :=
  bool_decide (is_Some (Ascii.is_nat c)).

(** [s] is made of decimal digits *)
Fixpoint all_digits (s : string) : bool :=
  match s with
  | "" => true
  | String a s' => is_digit a && all_digits s'
  end.

(** the longest run of decimal digits that [s] starts with, and the rest *)
Fixpoint span_digits (s : string) : string * string :=
  match s with
  | "" => ("", "")
  | String a s' =>
      if is_digit a
      then let '(d, r) := span_digits s' in (String a d, r)
      else ("", s)
  end.

End Str.

(** ** Exceptions, events and the monad of the script *)

Inductive exn :=
| AssertionError (msg : string)
| AttributeError (msg : string)
| ValueError (msg : string)
| ZeroDivisionError (msg : string)
| SystemExit (code : Z).

Inductive result (A : Type) :=
| Ok (a : A)
| Raise (e : exn).
Arguments Ok {A} a.
Arguments Raise {A} e.

(** ** Numbers and tables *)

(** A float: [Some q] is the finite value [q], [None] a non-finite one. *)
Definition num : Type := option Qc.

Definition hundred : Qc := Qc_of_Z 100.

Definition num_add (a b : num) : num :=
  match a, b with
  | Some x, Some y => Some (x + y)%Qc
  | _, _ => None
  end.

Definition num_mul (a b : num) : num :=
  match a, b with
  | Some x, Some y => Some (x * y)%Qc
  | _, _ => None
  end.

(** numpy's true division: a zero divisor gives [nan] or [inf], no exception. *)
Definition num_div (a b : num) : num :=
  match a, b with
  | Some x, Some y => if decide (y = 0%Qc) then None else Some (x / y)%Qc
  | _, _ => None
  end.

(** [a.sum()] of a one-dimensional array; the sum of nothing is [0]. *)
Definition np_sum (a : list num) : num := foldr num_add (Some 0%Qc) a.

(** [sum] over finite values *)
Definition Qc_sum (xs : list Qc) : Qc := foldr Qcplus 0%Qc xs.

(** [Series.mean()], which skips the missing entries ([skipna=True]) and is
    [nan] when nothing is left. *)
Definition pd_mean (col : list num) : num :=
  let xs := omap id col in
  num_div (Some (Qc_sum xs)) (Some (Qc_of_Z (Z.of_nat (length xs)))).

(** Column [j] of a two-dimensional block given by its rows. *)
Definition column (j : nat) (block : list (list num)) : list num :=
  (λ r, mjoin (r !! j)) <$> block.

(** The [k] columns of a block of width [k] (also when it has no row). *)
Definition columns_of (k : nat) (block : list (list num)) : list (list num) :=
  (λ j, column j block) <$> seq 0 k.

(** A row of a pandas [DataFrame] whose first column (or whose index) is a
    string and whose other columns are numeric. *)
Record frame_row := FrameRow { label : string; cells : list num }.
Abbreviation frame := (list frame_row).

(** [l[lo:hi]] *)
Definition slice {A} (lo hi : nat) (l : list A) : list A :=
  take (hi - lo) (drop lo l).

(** [l[-n:]] *)
Definition last_n {A} (n : nat) (l : list A) : list A :=
  drop (length l - n) l.

(** [fr.iloc[:, lo:hi]] for [1 <= lo] on a frame whose column 0 is the
    label: the numeric columns [lo .. hi-1]. *)
Definition iloc_cols (lo hi : nat) (fr : frame) : list (list num) :=
  (λ r, slice (lo - 1) (hi - 1) (cells r)) <$> fr.

(** [fr.iloc[:, -n:].to_numpy()]: the values of the last [n] columns. *)
Definition iloc_last (n : nat) (fr : frame) : list (list num) :=
  (λ r, last_n n (cells r)) <$> fr.

(** [fr.iloc[:, -n:] = v] *)
Definition iloc_last_set (n : nat) (fr : frame) (v : list (list num)) : frame :=
  zip_with
    (λ r c, FrameRow (label r) (take (length (cells r) - n) (cells r) ++ c))
    fr v.

(** [(a / a.sum(axis=1, keepdims=True)) * 100] *)
Definition row_percentages (a : list (list num)) : list (list num) :=
  (λ r, (λ c, num_mul (num_div c (np_sum r)) (Some hundred)) <$> r) <$> a.

(** [a.sum(axis=0)] for a block of width [k] *)
Definition sum_axis0 (k : nat) (a : list (list num)) : list num :=
  np_sum <$> columns_of k a.

(** [(t / t.sum()) * 100] *)
Definition percentages (t : list num) : list num :=
  (λ c, num_mul (num_div c (np_sum t)) (Some hundred)) <$> t.

(** [fr.iloc[:, lo:hi].mean(axis=0)] *)
Definition mean_axis0 (lo hi : nat) (fr : frame) : list num :=
  pd_mean <$> columns_of (hi - lo) (iloc_cols lo hi fr).

(** [fr.loc[k] = v]: every row labelled [k] is overwritten; when there is
    none the frame is enlarged by one row at the end. *)
Definition loc_set (k : string) (v : list num) (fr : frame) : frame :=
  if bool_decide (k ∈ label <$> fr)
  then (λ r, if bool_decide (label r = k) then FrameRow k v else r) <$> fr
  else fr ++ [FrameRow k v].

(** [fr.loc[k]] when the label is unique *)
Definition loc_get (k : string) (fr : frame) : option (list num) :=
  (cells ∘ snd) <$> list_find (λ r, label r = k) fr.

(** Python compares [str] by code points, character by character. *)
Definition label_le (r1 r2 : frame_row) : Prop :=
  String.le (label r1) (label r2).

Global Instance label_le_dec : RelDecision label_le.
Proof. intros r1 r2. unfold label_le. apply _. Defined.

Global Instance label_le_total : Total label_le.
Proof. intros r1 r2. unfold label_le. apply (total String.le). Qed.

(** [fr.sort_index(ascending=True, axis=0)] *)
Definition sort_index (fr : frame) : frame := merge_sort label_le fr.

(** ** The data sets and the helper module [core] *)

(** A row of a loaded data set: the bird it belongs to and the values of
    its other columns. *)
Record row := Row { row_TagID : string; row_values : list Qc }.

Record dataset := Dataset { columns : list string; rows : list row }.

(** [data.TagID] *)
Definition TagID_column (data : dataset) : list string :=
  row_TagID <$> rows data.

(** [data[data.TagID == bird].compute()] *)
Definition rows_of_bird (data : dataset) (bird : string) : list row :=
  filter (λ r, row_TagID r = bird) (rows data).

(** Modelled from the spec: the record a fold's task returns.  The helper
    [core.build_train_evaluate_dask] is not part of the sources; the spec
    has it return the subject identifier and nine statistics, the last four
    being the raw confusion counts, in the order of the columns
    [['TagID', *metrics]] that [main] gives them. *)
Record fold_metrics := FoldMetrics {
  fm_TagID : string;
  fm_Accuracy : Qc;
  fm_AUC : Qc;
  fm_Precision : Qc;
  fm_Sensitivity : Qc;
  fm_Specificity : Qc;
  fm_TruePos : Qc;
  fm_FalsePos : Qc;
  fm_FalseNeg : Qc;
  fm_TrueNeg : Qc
}.

Definition metrics : list string :=
  ["Accuracy"; "AUC"; "Precision"; "Sensitivity"; "Specificity";
   "TruePos (%)"; "FalsePos (%)"; "FalseNeg (%)"; "TrueNeg (%)"].

(** [pd.DataFrame(m, columns=['TagID', *metrics])] *)
Definition DataFrame (m : list fold_metrics) : frame :=
  (λ r, FrameRow (fm_TagID r)
          (Some <$> [fm_Accuracy r; fm_AUC r; fm_Precision r;
                     fm_Sensitivity r; fm_Specificity r;
                     fm_TruePos r; fm_FalsePos r; fm_FalseNeg r;
                     fm_TrueNeg r])) <$> m.

(** ** Paths, [fnmatch] and [glob] *)

Abbreviation sep := "/"%char (only parsing).

Module Posixpath.

(** the part of [p] up to and including its last separator, and the rest:
    [p[:i], p[i:]] for [i = p.rfind('/') + 1] *)
Fixpoint rsplit_sep (p : string) : string * string :=
  match p with
  | "" => ("", "")
  | String a p' =>
      if Str.mem sep p'
      then let '(h, t) := rsplit_sep p' in (String a h, t)
      else if bool_decide (a = sep) then (String sep "", p') else ("", p)
  end.

(** [os.path.split] *)
Definition split (p : string) : string * string :=
  let '(head, tail) := rsplit_sep p in
  if bool_decide (head ≠ "") && negb (Str.all_eq sep head)
  then (Str.rstrip sep head, tail)
  else (head, tail).

(** [os.path.join(a, b)] *)
Definition join (a b : string) : string :=
  if Str.startswith (String sep "") b then b
  else if bool_decide (a = "") || Str.endswith (String sep "") a then a +:+ b
  else a +:+ String sep "" +:+ b.

(** [os.path.basename]: [p[p.rfind('/') + 1:]] *)
Definition basename (p : string) : string := snd (rsplit_sep p).

End Posixpath.

(** [fnmatch.fnmatchcase(name, pat)] for patterns made of literal
    characters, [*] and [?].  Bracket expressions are not modelled: the
    patterns [main] builds for a data type [ACC] or [IMM] contain none. *)
Fixpoint fnmatch (pat name : string) : bool :=
  match pat with
  | "" => bool_decide (name = "")
  | String c pat' =>
      if bool_decide (c = "*"%char) then
        (fix star (s : string) : bool :=
           fnmatch pat' s ||
           match s with
           | "" => false
           | String _ s' => star s'
           end) name
      else
        match name with
        | "" => false
        | String d name' =>
            (bool_decide (c = "?"%char) || bool_decide (c = d))
            && fnmatch pat' name'
        end
  end.

(** [glob.has_magic] *)
Definition has_magic (s : string) : bool :=
  Str.mem "*"%char s || Str.mem "?"%char s || Str.mem "["%char s.

(** [glob._ishidden] *)
Definition ishidden (name : string) : bool := Str.startswith "." name.

Section Glob.

(** The names of the entries of a directory (none when it cannot be
    listed), as [os.scandir] yields them. *)
Variable scandir : string → list string.
(** The directories a directory pattern with wildcards expands to. *)
Variable iglob_dirs : string → list string.

(** [glob._glob1] *)
Definition glob1 (dirname pattern : string) : list string :=
  let names := scandir dirname in
  let names :=
    if ishidden pattern then names
    else filter (λ x, ishidden x = false) names in
  filter (λ name, fnmatch pattern name = true) names.

(** [glob.glob(pathname)] for a [pathname] whose last component has a
    wildcard (and is not [**]). *)
Definition glob (pathname : string) : list string :=
  let '(dirname, basename) := Posixpath.split pathname in
  if bool_decide (dirname = "") then glob1 "." basename
  else
    let dirs :=
      if bool_decide (dirname ≠ pathname) && has_magic dirname
      then iglob_dirs dirname
      else [dirname] in
    d ← dirs; Posixpath.join d <$> glob1 d basename.

End Glob.

(** ** Window-id extraction *)

(** One attempt of the pattern [/{dtype}(\d+)_reduced] at the start of [s],
    for a [dtype] without regular-expression operators.  [\d+] is greedy
    and the character after it, [_], is no digit, so the group can only be
    the longest run of digits. *)
Definition match_here (dtype s : string) : option string :=
  let lead := String sep "" +:+ dtype in
  if Str.startswith lead s then
    let '(d, r) := Str.span_digits (Str.drop (String.length lead) s) in
    if bool_decide (d ≠ "") && Str.startswith "_reduced" r
    then Some d else None
  else None.

(** [re.search(fr"/{dtype}(\d+)_reduced", f)], as the text of group 1 of the
    leftmost match; [None] when the pattern occurs nowhere in [f]. *)
Fixpoint re_search (dtype f : string) : option string :=
  match match_here dtype f with
  | Some d => Some d
  | None =>
      match f with
      | "" => None
      | String _ f' => re_search dtype f'
      end
  end.

(** ** Configuration *)

Module Args.
(** The six values [parse_arguments] returns and [main] takes. *)
Record t := Make {
  indir : string;
  outdir : string;
  dtype : string;
  ycol : string;
  drop : list string;
  epochs : Z
}.
End Args.

(** The options found on the command line; [None] for one that is absent. *)
Record argv := Argv {
  opt_i : option string;
  opt_o : option string;
  opt_t : option string;
  opt_y : option string;
  opt_d : option (list string);
  opt_e : option Z
}.

(** ** The log of a run *)

(** The arguments of one call of [core.build_train_evaluate_dask]. *)
Record fit_task := FitTask {
  ft_data : dataset;
  ft_bird : string;
  ft_modelpath : string;
  ft_ycol : string;
  ft_drop : list string;
  ft_epochs : Z
}.

(** The arguments of one call of [core.predict_dives]. *)
Record predict_task := PredictTask {
  pt_modelpath : string;
  pt_rows : list row;
  pt_ycol : string;
  pt_drop : list string;
  pt_flag : bool
}.

Inductive event :=
| Eecho (args : Args.t)                     (* the PARAMS USED banner *)
| Eprint (text : string)
| Eglob (pathname : string)
| Eread_csv (path : string)
| Estarmap_fit (tasks : list fit_task)
| Estarmap_predict (tasks : list predict_task)
| Eto_csv (path : string) (index : bool) (table : frame)
| Efull_model (in_shape : nat) (path : string).

Definition M (A : Type) : Type := list event → result A * list event.

Definition ret {A} (a : A) : M A := λ log, (Ok a, log).
Definition bind {A B} (c : M A) (k : A → M B) : M B :=
  λ log,
    match c log with
    | (Ok a, log') => k a log'
    | (Raise e, log') => (Raise e, log')
    end.
Definition raise {A} (e : exn) : M A := λ log, (Raise e, log).
Definition emit (ev : event) : M unit := λ log, (Ok tt, log ++ [ev]).

Notation "x ⇐ c ;; k" := (bind c (λ x, k))
  (at level 100, c at next level, right associativity,
   format "'[v' x  ⇐  c  ;;  '/' k ']'").
Notation "c ;;; k" := (bind c (λ _, k))
  (at level 100, right associativity, format "'[v' c  ;;;  '/' k ']'").

(** [assert b, msg] *)
Definition assert (b : bool) (msg : string) : M unit :=
  if b then ret tt else raise (AssertionError msg).

(** ** The script *)

Definition nl : string := String "010"%char "".

Definition choices : list string := ["ACC"; "IMM"].

(** The values of the options, each with its default; [t] is the value
    of the required [-t]. *)
Definition resolve (a : argv) (t : string) : Args.t :=
  Args.Make (default "../Data/Reduced/" (opt_i a))
            (default "../Results/" (opt_o a))
            t
            (default "Dive" (opt_y a))
            (default ["TagID"; "ix"] (opt_d a))
            (default 50%Z (opt_e a)).

(** [parse_arguments]: [argparse] fills in the defaults, refuses a missing
    or unknown [-t] and an empty [-d] by leaving with status 2, and the
    values are echoed. *)
Definition parse_arguments (a : argv) : M Args.t :=
  match opt_t a with
  | None => raise (SystemExit 2)
  | Some t =>
      if bool_decide (t ∈ choices) then
        if bool_decide (opt_d a = Some []) then raise (SystemExit 2)
        else
          emit (Eecho (resolve a t)) ;;;
          ret (resolve a t)
      else raise (SystemExit 2)
  end.

(** [len(set(data.columns) - {ycol, *drop})] *)
Definition in_shape (data : dataset) (ycol : string) (drop : list string) : nat :=
  size ((list_to_set (columns data) : gset string)
          ∖ ({[ ycol ]} ∪ list_to_set drop)).

(** [pd.concat(preds)] refuses an empty list.  (Line 125 gets a frame for
    every bird, and a data set without birds does not get that far.) *)
Definition concat (preds : list frame) : M frame :=
  match preds with
  | [] => raise (ValueError "No objects to concatenate")
  | _ => ret (mjoin preds)
  end.

(** Lines 106-115 on a table with rows, whose columns are numeric: from
    the table of the folds, the table with its confusion counts as
    percentages, and the row of the summary.  [conf_temp] holds the values
    the four columns had at line 106: the assignment of line 107 gives the
    table new values and leaves [conf_temp] as it was.  On a table without
    rows the first component is still the table that line 110 writes, but
    no row of the summary comes out of line 115: see
    [pooled_division]. *)
Definition aggregate (Xval_metrics : frame) : frame * list num :=
  let conf_temp := iloc_last 4 Xval_metrics in
  let Xval_metrics := iloc_last_set 4 Xval_metrics (row_percentages conf_temp) in
  let mean_stats := mean_axis0 1 6 Xval_metrics in
  let conf_total := sum_axis0 4 conf_temp in
  let conf_total := percentages conf_total in
  (Xval_metrics, mean_stats ++ conf_total).

(** The division of line 115, [conf_total / conf_total.sum()].  The
    columns of a table with rows are numeric and numpy divides without
    raising, a zero divisor giving [nan] (as [aggregate] has it).  The
    columns of a table without rows have dtype [object]: the sums of line
    114 are the Python integer [0], and dividing them raises. *)
Definition pooled_division (Xval_metrics : frame) : M unit :=
  match Xval_metrics with
  | [] => raise (ZeroDivisionError "division by zero")
  | _ => ret tt
  end.

(** What a run finds around it: the file system, the iteration order of
    sets, and the helpers of [core] that return something [main] uses. *)
Module World.
Record t := Make {
  (** the names of the entries of a directory *)
  scandir : string → list string;
  (** the directories a directory pattern with wildcards expands to *)
  iglob_dirs : string → list string;
  (** [dd.read_csv] *)
  read_csv : string → dataset;
  (** the order in which a Python [set] of strings is iterated *)
  set_iter : gset string → list string;
  build_train_evaluate_dask :
    dataset → string → string → string → list string → Z → fold_metrics;
  predict_dives :
    string → list row → string → list string → bool → frame
}.
End World.

Section Script.

Variable w : World.t.
Let scandir := World.scandir w.
Let iglob_dirs := World.iglob_dirs w.
Let read_csv := World.read_csv w.
Let set_iter := World.set_iter w.
Let build_train_evaluate_dask := World.build_train_evaluate_dask w.
Let predict_dives := World.predict_dives w.

Section Main.

Variable args : Args.t.
Let indir := Args.indir args.
Let outdir := Args.outdir args.
Let dtype := Args.dtype args.
Let ycol := Args.ycol args.
Let drop := Args.drop args.
Let epochs := Args.epochs args.

(** [f'{outdir}{dtype}_{wdw}_Keras/{bird}_withheld.h5'] *)
Definition fold_model_path (wdw bird : string) : string :=
  outdir +:+ dtype +:+ "_" +:+ wdw +:+ "_Keras/" +:+ bird +:+ "_withheld.h5".

(** [set(data.TagID)], in the order the two comprehensions iterate it *)
Definition birds_of (data : dataset) : list string :=
  set_iter (list_to_set (TagID_column data)).

(** The argument list of the first [starmap]: one task per bird. *)
Definition fit_tasks (wdw : string) (data : dataset) : list fit_task :=
  (λ bird, FitTask data bird (fold_model_path wdw bird) ycol drop epochs)
    <$> birds_of data.

(** The argument list of the second [starmap]. *)
Definition predict_tasks (wdw : string) (data : dataset) : list predict_task :=
  (λ bird, PredictTask (fold_model_path wdw bird) (rows_of_bird data bird)
             ycol drop true)
    <$> birds_of data.

Definition run_fit (t : fit_task) : fold_metrics :=
  build_train_evaluate_dask (ft_data t) (ft_bird t) (ft_modelpath t)
    (ft_ycol t) (ft_drop t) (ft_epochs t).

Definition run_predict (t : predict_task) : frame :=
  predict_dives (pt_modelpath t) (pt_rows t) (pt_ycol t) (pt_drop t)
    (pt_flag t).

(** [m]: what the first [starmap] returns, one record per task, in the
    order of the tasks. *)
Definition fold_records (wdw : string) (data : dataset) : list fold_metrics :=
  run_fit <$> fit_tasks wdw data.

Definition metrics_path (wdw : string) : string :=
  outdir +:+ dtype +:+ "_" +:+ wdw +:+ "_xval_metrics_keras.csv".

Definition predictions_path (wdw : string) : string :=
  outdir +:+ dtype +:+ "_" +:+ wdw +:+ "_xval_predictions.csv".

Definition full_model_path (wdw : string) : string :=
  outdir +:+ dtype +:+ "_" +:+ wdw +:+ "_Keras/full_model.h5".

Definition banner (f : string) : string :=
  nl +:+ "---------- PROCESSING FILE: " +:+ f +:+ " ----------" +:+ nl.

(** The body of the loop over the files (lines 89-133).  It raises at line
    92 when the path has no window id, and at line 115 when the data set
    has no row. *)
Definition process_file (out_stats : frame) (f : string) : M frame :=
  emit (Eprint (banner f)) ;;;
  match re_search dtype f with
  | None =>
      raise (AttributeError "'NoneType' object has no attribute 'group'")
  | Some wdw =>
      emit (Eread_csv f) ;;;
      let data := read_csv f in
      emit (Estarmap_fit (fit_tasks wdw data)) ;;;
      let m := fold_records wdw data in
      let '(Xval_metrics, summary) := aggregate (DataFrame m) in
      emit (Eto_csv (metrics_path wdw) false Xval_metrics) ;;;
      pooled_division (DataFrame m) ;;;
      let out_stats := loc_set wdw summary out_stats in
      emit (Estarmap_predict (predict_tasks wdw data)) ;;;
      predictions ⇐ concat (run_predict <$> predict_tasks wdw data) ;;
      emit (Eto_csv (predictions_path wdw) false predictions) ;;;
      emit (Efull_model (in_shape data ycol drop) (full_model_path wdw)) ;;;
      ret out_stats
  end.

(** What the body logs for a file with window id [wdw] when nothing
    raises. *)
Definition file_events (f wdw : string) : list event :=
  let data := read_csv f in
  [Eprint (banner f); Eread_csv f; Estarmap_fit (fit_tasks wdw data);
   Eto_csv (metrics_path wdw) false
     (aggregate (DataFrame (fold_records wdw data))).1;
   Estarmap_predict (predict_tasks wdw data);
   Eto_csv (predictions_path wdw) false
     (mjoin (run_predict <$> predict_tasks wdw data));
   Efull_model (in_shape data ycol drop) (full_model_path wdw)].

(** The row a file with window id [wdw] gives to [out_stats]. *)
Definition file_summary (f wdw : string) : list num :=
  (aggregate (DataFrame (fold_records wdw (read_csv f)))).2.

(** The effect of the body on [out_stats] when nothing raises. *)
Definition step (out_stats : frame) (f : string) : frame :=
  match re_search dtype f with
  | Some wdw => loc_set wdw (file_summary f wdw) out_stats
  | None => out_stats
  end.

(** A file the body gets through: it has a window id and a bird. *)
Definition processable (f : string) : Prop :=
  is_Some (re_search dtype f) ∧ birds_of (read_csv f) ≠ [].

(** [for f in files: ...] *)
Fixpoint process_files (out_stats : frame) (files : list string) : M frame :=
  match files with
  | [] => ret out_stats
  | f :: files' =>
      out_stats ⇐ process_file out_stats f ;;
      process_files out_stats files'
  end.

(** [glob.glob(f'{indir}{dtype}*.csv')] *)
Definition discover : list string :=
  glob scandir iglob_dirs (indir +:+ dtype +:+ "*.csv").

Definition summary_path : string :=
  outdir +:+ dtype +:+ "_WindowComp_XVal_Metrics_Keras.csv".

Definition main : M unit :=
  assert (bool_decide (dtype ∈ choices))
    "dtype arg must be one of ['ACC', 'IMM']" ;;;
  assert (Str.endswith "/" indir)
    "indir arg must end with a forward slash" ;;;
  assert (Str.endswith "/" outdir)
    "outdir arg must end with a forward slash" ;;;
  let out_stats : frame := [] in
  emit (Eglob (indir +:+ dtype +:+ "*.csv")) ;;;
  let files := discover in
  out_stats ⇐ process_files out_stats files ;;
  let out_stats := sort_index out_stats in
  emit (Eto_csv summary_path true out_stats) ;;;
  ret tt.

End Main.

(** The entry point: [main] on the six values of [parse_arguments]. *)
Definition script (a : argv) : M unit :=
  args ⇐ parse_arguments a ;;
  main args.

End Script.

(** ** Vocabulary of the statements *)

(** The directory [glob] lists for [indir] followed by a file pattern:
    [indir] without its trailing separators, unless it is made of
    separators only. *)
Definition dirname_of (indir : string) : string :=
  if Str.all_eq sep indir then indir else Str.rstrip sep indir.

(** The directories searched: the one above, or what it expands to when it
    has wildcards of its own. *)
Definition search_dirs (iglob_dirs : string → list string) (indir : string)
  : list string :=
  if has_magic (dirname_of indir) then iglob_dirs (dirname_of indir)
  else [dirname_of indir].

(** A file name of the form [<dtype><anything>.csv]. *)
Definition csv_of_dtype (dtype name : string) : Prop :=
  ∃ mid, name = dtype +:+ mid +:+ ".csv".


(** A pattern without [*] and [?]. *)
Definition literal (pat : string) : Prop :=
  Str.mem "*"%char pat = false ∧ Str.mem "?"%char pat = false.

(** The total of the four confusion counts of a fold. *)
Definition conf_total_of (r : fold_metrics) : Qc :=
  (fm_TruePos r + fm_FalsePos r + fm_FalseNeg r + fm_TrueNeg r)%Qc.

(** [c] as a percentage of [t]. *)
Definition pct (c t : Qc) : Qc := (c / t * hundred)%Qc.

(** [c] as a percentage of [t] the way numpy computes it: not finite when
    [t] is zero. *)
Definition pct_cell (c t : Qc) : num :=
  if decide (t = 0%Qc) then None else Some (pct c t).

(** The mean of finitely many finite values; [nan] for none. *)
Definition mean_of (xs : list Qc) : num :=
  match xs with
  | [] => None
  | _ => Some (Qc_sum xs / Qc_of_Z (Z.of_nat (length xs)))%Qc
  end.

(** The confusion counts of all the folds together. *)
Definition pooled_total (m : list fold_metrics) : Qc :=
  (Qc_sum (fm_TruePos <$> m) + Qc_sum (fm_FalsePos <$> m)
   + Qc_sum (fm_FalseNeg <$> m) + Qc_sum (fm_TrueNeg <$> m))%Qc.

(** A percentage of the pooled total, [nan] when that total is zero. *)
Definition pooled_pct (c : Qc) (m : list fold_metrics) : num :=
  if decide (pooled_total m = 0%Qc) then None
  else Some (pct c (pooled_total m)).

(** The row of a fold in the table of the folds, its counts as
    percentages of its own total. *)
Definition fold_row (r : fold_metrics) : frame_row :=
  FrameRow (fm_TagID r)
    (Some <$> [fm_Accuracy r; fm_AUC r; fm_Precision r; fm_Sensitivity r;
               fm_Specificity r;
               pct (fm_TruePos r) (conf_total_of r);
               pct (fm_FalsePos r) (conf_total_of r);
               pct (fm_FalseNeg r) (conf_total_of r);
               pct (fm_TrueNeg r) (conf_total_of r)]).

(** The row of the summary for the folds [m]: five means, then the four
    pooled percentages. *)
Definition summary_row (m : list fold_metrics) : list num :=
  [mean_of (fm_Accuracy <$> m); mean_of (fm_AUC <$> m);
   mean_of (fm_Precision <$> m); mean_of (fm_Sensitivity <$> m);
   mean_of (fm_Specificity <$> m);
   pooled_pct (Qc_sum (fm_TruePos <$> m)) m;
   pooled_pct (Qc_sum (fm_FalsePos <$> m)) m;
   pooled_pct (Qc_sum (fm_FalseNeg <$> m)) m;
   pooled_pct (Qc_sum (fm_TrueNeg <$> m)) m].

(** The other reading: the mean over the folds of each fold's own
    percentage, taken from the table of the folds after line 107. *)
Definition mean_of_fold_percentages (m : list fold_metrics) : list num :=
  mean_axis0 6 10 (aggregate (DataFrame m)).1.

(** The value of a decimal digit. *)
Definition digit_value (a : ascii) : N :=
  N.of_nat (default 0%nat (Ascii.is_nat a)).

(** The number read so far being [acc], the number after the digits [s]. *)
Fixpoint digits_value (acc : N) (s : string) : N :=
  match s with
  | "" => acc
  | String a s' => digits_value (10 * acc + digit_value a) s'
  end.

(** [int(wdw)] for a string of decimal digits. *)
Definition int_of_digits (wdw : string) : N := digits_value 0 wdw.

(** The labels of a table, top to bottom. *)
Definition index_of (fr : frame) : list string := label <$> fr.

(** A table written with its index, as only the summary is. *)
Definition is_index_write (ev : event) : bool :=
  match ev with
  | Eto_csv _ true _ => true
  | _ => false
  end.

(** The configurations [main] accepts. *)
Definition valid_args (args : Args.t) : Prop :=
  (Args.dtype args = "ACC" ∨ Args.dtype args = "IMM")
  ∧ (∃ p, Args.indir args = p +:+ "/")
  ∧ (∃ p, Args.outdir args = p +:+ "/").

(** The path [f] contains the window-size token: the separator, the data
    type, one or more decimal digits and [_reduced]. *)
Definition has_window_token (dtype f : string) : Prop :=
  ∃ pre digits post,
    f = pre +:+ "/" +:+ dtype +:+ digits +:+ "_reduced" +:+ post
    ∧ digits ≠ "" ∧ Str.all_digits digits = true.

(** The columns left for the features: not the target, not on the drop
    list. *)
Definition is_feature (ycol : string) (drop : list string) (c : string) : Prop :=
  c ≠ ycol ∧ c ∉ drop.

Global Instance is_feature_dec ycol drop c : Decision (is_feature ycol drop c).
Proof. unfold is_feature. apply _. Defined.


(** Modelled from the spec: the rows a fold is tested on, all the rows
    whose subject is the held-out one. *)
Definition test_rows (data : dataset) (bird : string) : list row :=
  filter (λ r, row_TagID r = bird) (rows data).

(** A Python [set] is iterated once over each of its elements, in an order
    of its own. *)
Definition iterates_sets (w : World.t) : Prop :=
  ∀ s : gset string, World.set_iter w s ≡ₚ elements s.

(** ** A small world to run the script in *)

Module Example.

Definition q (z : Z) : Qc := Qc_of_Z z.

(** Two birds, three rows. *)
Definition data : dataset :=
  Dataset ["TagID"; "ix"; "Dive"; "x"; "y"]
          [Row "A" [q 1; q 0; q 3; q 4]; Row "B" [q 2; q 1; q 5; q 6];
           Row "A" [q 3; q 0; q 7; q 8]].

(** A third bird in the files of a second version. *)
Definition data_v2 : dataset :=
  Dataset ["TagID"; "ix"; "Dive"; "x"; "y"]
          (rows data ++ [Row "C" [q 4; q 1; q 9; q 9]]).

Definition read_csv (f : string) : dataset :=
  if Str.endswith "_v2.csv" f then data_v2 else data.

(** Fold [A] counts (8,1,1,0), the others (2,4,3,1). *)
Definition fit (d : dataset) (bird path ycol : string) (drop : list string)
    (epochs : Z) : fold_metrics :=
  if bool_decide (bird = "A")
  then FoldMetrics bird (q 1) (q 1) (q 1) (q 1) (q 1) (q 8) (q 1) (q 1) (q 0)
  else FoldMetrics bird (q 0) (q 0) (q 0) (q 0) (q 0) (q 2) (q 4) (q 3) (q 1).

Definition predict (path : string) (rs : list row) (ycol : string)
    (drop : list string) (flag : bool) : frame :=
  (λ r, FrameRow (row_TagID r) [Some (q 1)]) <$> rs.

(** The records of the two kinds of fold above. *)
Definition fold_A : fold_metrics := fit data "A" "" "Dive" [] 1.
Definition fold_B : fold_metrics := fit data "B" "" "Dive" [] 1.

(** Two folds of different sizes: counts (1,0,0,0) and (0,1,0,1). *)
Definition uneven_folds : list fold_metrics :=
  [FoldMetrics "A" (q 1) (q 1) (q 1) (q 1) (q 1) (q 1) (q 0) (q 0) (q 0);
   FoldMetrics "B" (q 0) (q 0) (q 0) (q 0) (q 0) (q 0) (q 1) (q 0) (q 1)].

(** The numerators and denominators of a row, to compare rows by
    computation. *)
Definition fractions (r : list num) : list (option Q) :=
  (λ n : num, this <$> n) <$> r.

(** A world whose directories all hold the files [names]. *)
Definition world (names : list string) : World.t :=
  World.Make (λ _, names) (λ _, []) read_csv elements fit predict.

(** A file with its header line and nothing below it. *)
Definition no_rows : dataset := Dataset ["TagID"; "ix"; "Dive"; "x"; "y"] [].

(** The same world, where the files named [..._empty.csv] have no row. *)
Definition read_csv_sparse (f : string) : dataset :=
  if Str.endswith "_empty.csv" f then no_rows else read_csv f.

Definition sparse_world (names : list string) : World.t :=
  World.Make (λ _, names) (λ _, []) read_csv_sparse elements fit predict.

Definition args : Args.t :=
  Args.Make "in/" "out/" "ACC" "Dive" ["TagID"; "ix"] 1.

(** The labels of the table with an index that a log ends with. *)
Definition written_index (log : list event) : option (list string) :=
  match last log with
  | Some (Eto_csv _ true t) => Some (index_of t)
  | _ => None
  end.

End Example.

(** ** Vocabulary of the further properties *)


(** The same world with the directories listed another way. *)
Definition with_scandir (w : World.t) (scandir : string → list string)
  : World.t :=
  World.Make scandir (World.iglob_dirs w) (World.read_csv w)
             (World.set_iter w) (World.build_train_evaluate_dask w)
             (World.predict_dives w).

(** What the loop logs for files it gets through, in their order. *)
Definition run_events (w : World.t) (args : Args.t) (files : list string)
  : list event :=
  f ← files;
  match re_search (Args.dtype args) f with
  | Some wdw => file_events w args f wdw
  | None => []
  end.

(** How the body ends on a file it does not get through: the exception,
    and what it has logged by then.  Without a window id that is the
    [AttributeError] of line 92, after the banner; with a window id and no
    bird the [ZeroDivisionError] of line 115, after the metrics CSV. *)
Definition failure_of (w : World.t) (args : Args.t) (f : string)
  : exn * list event :=
  match re_search (Args.dtype args) f with
  | None =>
      (AttributeError "'NoneType' object has no attribute 'group'",
       [Eprint (banner f)])
  | Some wdw =>
      (ZeroDivisionError "division by zero",
       take 4 (file_events w args f wdw))
  end.

(** The pattern handed to [glob]. *)
Definition glob_pattern (args : Args.t) : string :=
  Args.indir args +:+ Args.dtype args +:+ "*.csv".

(** The window ids of a list of files, in their order. *)
Definition window_ids (args : Args.t) (files : list string) : list string :=
  omap (re_search (Args.dtype args)) files.

(** * Facts *)

(** ** Strings *)

Module StrFacts.

Lemma append_cons a s t : String a s +:+ t = String a (s +:+ t).
Proof. reflexivity. Qed.

Lemma append_nil_r s : s +:+ "" = s.
Proof. induction s as [|a s IH]; [done|]. by rewrite append_cons, IH. Qed.

Lemma append_assoc s t u : (s +:+ t) +:+ u = s +:+ t +:+ u.
Proof. induction s as [|a s IH]; [done|]. by rewrite !append_cons, IH. Qed.

Lemma startswith_spec p s :
  Str.startswith p s = true ↔ ∃ r, s = p +:+ r.
Proof.
  revert s. induction p as [|a p IH]; intros s; simpl.
  - split; [eauto|done].
  - destruct s as [|b s].
    + split; [done|]. intros [r Hr]. by rewrite append_cons in Hr.
    + rewrite andb_true_iff, bool_decide_eq_true, IH. split.
      * intros [-> [r ->]]. by exists r.
      * intros [r Hr]. rewrite append_cons in Hr. simplify_eq. eauto.
Qed.

Lemma startswith_app p r : Str.startswith p (p +:+ r) = true.
Proof. apply startswith_spec. eauto. Qed.

Lemma endswith_spec p s :
  Str.endswith p s = true ↔ ∃ h, s = h +:+ p.
Proof.
  induction s as [|a s IH]; simpl.
  - rewrite orb_false_r, bool_decide_eq_true. split.
    + intros <-. by exists "".
    + intros [[|b h] Hh]; [done|by rewrite append_cons in Hh].
  - rewrite orb_true_iff, bool_decide_eq_true, IH. split.
    + intros [<-|[h ->]]; [by exists ""|]. by exists (String a h).
    + intros [[|b h] Hh]; [by left|].
      rewrite append_cons in Hh. simplify_eq. eauto.
Qed.

Lemma drop_app p r : Str.drop (String.length p) (p +:+ r) = r.
Proof. induction p as [|a p IH]; [by destruct r|]. by rewrite append_cons. Qed.

Lemma mem_app c s t : Str.mem c (s +:+ t) = Str.mem c s || Str.mem c t.
Proof.
  induction s as [|a s IH]; [done|].
  rewrite append_cons. simpl. by rewrite IH, orb_assoc.
Qed.

Lemma all_eq_mem c s : s ≠ "" → Str.all_eq c s = true → Str.mem c s = true.
Proof.
  destruct s as [|a s]; [done|]. simpl.
  intros _ [Ha _]%andb_true_iff. by rewrite Ha.
Qed.

(** What [rstrip] leaves carries the stripped run behind it. *)
Lemma rstrip_spec c s :
  ∃ run, s = Str.rstrip c s +:+ run ∧ Str.all_eq c run = true
         ∧ Str.endswith (String c "") (Str.rstrip c s) = false.
Proof.
  induction s as [|a s (run & Hs & Hrun & Hend)]; simpl.
  - exists "". done.
  - destruct (bool_decide (a = c) && Str.all_eq c s) eqn:Hall.
    + exists (String a s). simpl. by rewrite Hall.
    + exists run. rewrite append_cons, <-Hs. split_and!; [done..|].
      simpl. rewrite Hend, orb_false_r.
      apply bool_decide_eq_false. intros Heq.
      destruct (Str.rstrip c s) as [|b r] eqn:Hr; [|done].
      change ("" +:+ run) with run in Hs. simplify_eq.
      by rewrite bool_decide_eq_true_2, Hrun in Hall.
Qed.

End StrFacts.

(** ** Paths and patterns *)

Module PathFacts.
Import StrFacts.
#[local] Arguments String.append !_ _ / : simpl nomatch.

Lemma append_length s t :
  String.length (s +:+ t) = String.length s + String.length t.
Proof. induction s as [|a s IH]; [done|]. rewrite append_cons. simpl. by rewrite IH. Qed.

Lemma length_rstrip c s :
  (String.length (Str.rstrip c s) ≤ String.length s)%nat.
Proof.
  induction s as [|a s IH]; simpl; [done|].
  destruct (bool_decide (a = c) && Str.all_eq c s); simpl; lia.
Qed.

Lemma rsplit_sep_app h t :
  Str.mem sep t = false →
  Posixpath.rsplit_sep (h +:+ String sep t) = (h +:+ String sep "", t).
Proof.
  intros Ht. induction h as [|a h IH].
  - change ("" +:+ String sep t) with (String sep t). simpl. by rewrite Ht.
  - rewrite (append_cons a h). simpl. rewrite IH.
    rewrite mem_app. simpl. by rewrite orb_true_r.
Qed.

(** [os.path.split] of the pattern [main] hands to [glob]. *)
Lemma split_pattern indir base :
  Str.endswith "/" indir = true → Str.mem sep base = false →
  Posixpath.split (indir +:+ base) = (dirname_of indir, base).
Proof.
  intros [h ->]%endswith_spec Hbase. unfold Posixpath.split, dirname_of.
  rewrite append_assoc. change ("/" +:+ base) with (String sep base).
  rewrite (rsplit_sep_app h base Hbase).
  destruct (Str.all_eq "/" (h +:+ "/")); simpl.
  { by rewrite andb_false_r. }
  rewrite andb_true_r, bool_decide_eq_true_2; [done|]. by destruct h.
Qed.

Lemma dirname_of_shorter indir :
  (String.length (dirname_of indir) ≤ String.length indir)%nat.
Proof.
  unfold dirname_of. destruct (Str.all_eq sep indir); [done|].
  apply length_rstrip.
Qed.

Lemma literal_cons a pat :
  literal (String a pat) ↔ a ≠ "*"%char ∧ a ≠ "?"%char ∧ literal pat.
Proof.
  unfold literal. simpl. rewrite !orb_false_iff, !bool_decide_eq_false. tauto.
Qed.

Lemma fnmatch_star pat name :
  fnmatch (String "*"%char pat) name = true
  ↔ ∃ h t, name = h +:+ t ∧ fnmatch pat t = true.
Proof.
  simpl. induction name as [|a name IH].
  - rewrite orb_false_r. split.
    + intros ?. by exists "", "".
    + intros ([|b h] & t & Hht & Ht); [by simplify_eq/=|done].
  - rewrite orb_true_iff, IH. split.
    + intros [?|(h & t & -> & ?)]; [by exists "", (String a name)|].
      by exists (String a h), t.
    + intros ([|b h] & t & Hht & Ht).
      * left. by simplify_eq/=.
      * right. rewrite append_cons in Hht. simplify_eq. eauto.
Qed.

Lemma fnmatch_literal pat name :
  literal pat → fnmatch pat name = true ↔ name = pat.
Proof.
  revert name. induction pat as [|c pat IH]; intros name Hlit; simpl.
  - by rewrite bool_decide_eq_true.
  - apply literal_cons in Hlit as (H1 & H2 & Hlit).
    rewrite bool_decide_eq_false_2 by done.
    destruct name as [|d name]; [done|].
    rewrite (bool_decide_eq_false_2 (c = "?"%char)) by done. simpl.
    rewrite andb_true_iff, bool_decide_eq_true, IH by done.
    split; [by intros [-> ->]|by intros [= -> ->]].
Qed.

Lemma fnmatch_literal_prefix lit pat name :
  literal lit →
  fnmatch (lit +:+ pat) name = true
  ↔ ∃ t, name = lit +:+ t ∧ fnmatch pat t = true.
Proof.
  revert name. induction lit as [|c lit IH]; intros name Hlit.
  - change ("" +:+ pat) with pat. split; [by exists name|].
    by intros (t & -> & ?).
  - apply literal_cons in Hlit as (H1 & H2 & Hlit).
    rewrite append_cons. simpl. rewrite bool_decide_eq_false_2 by done.
    destruct name as [|d name].
    { split; [done|]. by intros (t & ? & _). }
    rewrite (bool_decide_eq_false_2 (c = "?"%char)) by done. simpl.
    rewrite andb_true_iff, bool_decide_eq_true, IH by done. split.
    + intros [-> (t & -> & ?)]. by exists t.
    + intros (t & Ht & ?). simplify_eq/=. eauto.
Qed.

(** The names [<dtype>*.csv] selects, for a [dtype] without wildcards. *)
Lemma fnmatch_dtype_csv dtype name :
  literal dtype →
  fnmatch (dtype +:+ "*.csv") name = true ↔ csv_of_dtype dtype name.
Proof.
  intros Hlit. rewrite fnmatch_literal_prefix by done. unfold csv_of_dtype.
  split.
  - intros (t & -> & (h & t' & -> & Ht')%fnmatch_star).
    apply fnmatch_literal in Ht' as ->; [|done]. by exists h.
  - intros [mid ->]. exists (mid +:+ ".csv"). split; [done|].
    apply fnmatch_star. exists mid, ".csv". split; [done|].
    by apply fnmatch_literal.
Qed.

Lemma choices_literal dtype : dtype ∈ choices → literal dtype.
Proof. unfold choices. rewrite !elem_of_cons. by intros [->|[->|?%elem_of_nil]]. Qed.

Lemma choices_no_sep dtype : dtype ∈ choices → Str.mem sep (dtype +:+ "*.csv") = false.
Proof. unfold choices. rewrite !elem_of_cons. by intros [->|[->|?%elem_of_nil]]. Qed.

Lemma choices_visible dtype mid :
  dtype ∈ choices → ishidden (dtype +:+ mid) = false.
Proof. unfold choices. rewrite !elem_of_cons. by intros [->|[->|?%elem_of_nil]]. Qed.

End PathFacts.

(** ** File discovery *)

Section GlobFacts.
Import StrFacts PathFacts.
#[local] Arguments String.append !_ _ / : simpl nomatch.

Variable scandir : string → list string.
Variable iglob_dirs : string → list string.

Lemma rstrip_nil c s : Str.rstrip c s = "" → Str.all_eq c s = true.
Proof.
  destruct s as [|a s]; [done|]. simpl.
  by destruct (bool_decide (a = c) && Str.all_eq c s).
Qed.

Lemma dirname_of_nonempty indir :
  Str.endswith "/" indir = true → dirname_of indir ≠ "".
Proof.
  intros [h ->]%endswith_spec. unfold dirname_of.
  destruct (Str.all_eq sep (h +:+ "/")) eqn:Hall; [by destruct h|].
  intros ?%rstrip_nil. congruence.
Qed.

Lemma dirname_of_pattern indir base :
  base ≠ "" → dirname_of indir ≠ indir +:+ base.
Proof.
  intros Hbase Heq. pose proof (dirname_of_shorter indir) as Hlen.
  rewrite Heq, append_length in Hlen. destruct base; simpl in *; [done|lia].
Qed.

Lemma elem_of_glob1 dtype d name :
  dtype ∈ choices →
  name ∈ glob1 scandir d (dtype +:+ "*.csv")
  ↔ name ∈ scandir d ∧ csv_of_dtype dtype name.
Proof.
  intros Hdtype. unfold glob1.
  rewrite (choices_visible dtype "*.csv" Hdtype).
  rewrite !list_elem_of_filter, fnmatch_dtype_csv by by apply choices_literal.
  split; [tauto|]. intros [? [mid ->]].
  split_and!; [by exists mid|by apply choices_visible|done].
Qed.

(** What [glob.glob(f'{indir}{dtype}*.csv')] returns. *)
Lemma elem_of_glob indir dtype p :
  dtype ∈ choices → Str.endswith "/" indir = true →
  p ∈ glob scandir iglob_dirs (indir +:+ dtype +:+ "*.csv")
  ↔ ∃ d name, d ∈ search_dirs iglob_dirs indir ∧ name ∈ scandir d
              ∧ csv_of_dtype dtype name ∧ p = Posixpath.join d name.
Proof.
  intros Hdtype Hindir. unfold glob, search_dirs.
  rewrite split_pattern by auto using choices_no_sep.
  rewrite bool_decide_eq_false_2 by by apply dirname_of_nonempty.
  rewrite bool_decide_eq_true_2; [|apply dirname_of_pattern; by destruct dtype].
  simpl. rewrite list_elem_of_bind. split.
  - intros (d & Hp & Hd).
    apply list_elem_of_fmap in Hp as (name & -> & Hname).
    apply elem_of_glob1 in Hname as [? ?]; [|done]. by exists d, name.
  - intros (d & name & Hd & Hname & Hcsv & ->). exists d. split; [|done].
    apply list_elem_of_fmap. exists name. split; [done|].
    by apply elem_of_glob1.
Qed.

Lemma rsplit_sep_none t :
  Str.mem sep t = false → Posixpath.rsplit_sep t = ("", t).
Proof.
  destruct t as [|a t]; [done|]. simpl.
  intros [Ha ->]%orb_false_iff. by rewrite Ha.
Qed.

Lemma basename_join d name :
  Str.mem sep name = false → Posixpath.basename (Posixpath.join d name) = name.
Proof.
  intros Hname. unfold Posixpath.join, Posixpath.basename.
  destruct (Str.startswith "/" name) eqn:Hstart.
  { apply startswith_spec in Hstart as [r ->]. by rewrite mem_app in Hname. }
  destruct (bool_decide (d = "")) eqn:Hd; simpl.
  { apply bool_decide_eq_true in Hd as ->. simpl. by rewrite rsplit_sep_none. }
  destruct (Str.endswith "/" d) eqn:Hend.
  - apply endswith_spec in Hend as [h ->]. rewrite append_assoc.
    change ("/" +:+ name) with (String sep name). by rewrite rsplit_sep_app.
  - change ("/" +:+ name) with (String sep name). by rewrite rsplit_sep_app.
Qed.


End GlobFacts.

(** ** Aggregation of the metrics *)

Module AggFacts.

Lemma np_sum_Some xs : np_sum (Some <$> xs) = Some (Qc_sum xs).
Proof.
  induction xs as [|x xs IH]; [done|].
  unfold np_sum in *. csimpl. by rewrite IH.
Qed.

Lemma Qc_of_nat_eq_0 n : Qc_of_Z (Z.of_nat n) = 0%Qc ↔ n = 0%nat.
Proof.
  split; [|intros ->; by apply Qc_is_canon].
  intros H. apply (f_equal (λ q : Qc, Qnum (this q))) in H. simpl in H. lia.
Qed.

Lemma pd_mean_Some xs : pd_mean (Some <$> xs) = mean_of xs.
Proof.
  unfold pd_mean, mean_of.
  assert (omap id (Some <$> xs) = xs) as ->.
  { induction xs as [|x xs IH]; [done|]. csimpl. by rewrite IH. }
  simpl. destruct xs as [|x xs]; [done|].
  rewrite decide_False; [done|]. by rewrite Qc_of_nat_eq_0.
Qed.

Lemma pd_mean_fmap {A} (f : A → Qc) (m : list A) :
  pd_mean ((λ r, Some (f r)) <$> m) = mean_of (f <$> m).
Proof. by rewrite <-pd_mean_Some, <-list_fmap_compose. Qed.

Lemma np_sum_fmap {A} (f : A → Qc) (m : list A) :
  np_sum ((λ r, Some (f r)) <$> m) = Some (Qc_sum (f <$> m)).
Proof. by rewrite <-np_sum_Some, <-list_fmap_compose. Qed.

Lemma column_fmap {A} j (f : A → list num) (m : list A) :
  column j (f <$> m) = (λ r, mjoin (f r !! j)) <$> m.
Proof. unfold column. by rewrite <-list_fmap_compose. Qed.

Lemma zip_with_fmap_same {A B C D} (f : B → C → D) (g : A → B) (h : A → C) (m : list A) :
  zip_with f (g <$> m) (h <$> m) = (λ x, f (g x) (h x)) <$> m.
Proof. induction m as [|x m IH]; [done|]. csimpl. by rewrite IH. Qed.

Lemma pct_cell_eq c t : num_mul (num_div (Some c) (Some t)) (Some hundred) = pct_cell c t.
Proof. unfold pct_cell, num_div, pct. by destruct (decide _). Qed.

Lemma aggregate_table m :
  (aggregate (DataFrame m)).1 =
  (λ r, FrameRow (fm_TagID r)
          ((Some <$> [fm_Accuracy r; fm_AUC r; fm_Precision r;
                      fm_Sensitivity r; fm_Specificity r])
           ++ [pct_cell (fm_TruePos r) (conf_total_of r);
               pct_cell (fm_FalsePos r) (conf_total_of r);
               pct_cell (fm_FalseNeg r) (conf_total_of r);
               pct_cell (fm_TrueNeg r) (conf_total_of r)])) <$> m.
Proof.
  unfold aggregate. cbv zeta. unfold fst. unfold iloc_last_set, row_percentages, iloc_last, DataFrame.
  rewrite <-!list_fmap_compose, zip_with_fmap_same.
  apply list_fmap_ext. intros _ r _. unfold last_n, np_sum, compose.
  cbn -[num_mul num_div Qcplus]. do 6 f_equal.
  assert ((fm_TruePos r + (fm_FalsePos r + (fm_FalseNeg r + (fm_TrueNeg r + 0))))%Qc
          = conf_total_of r) as ->.
  { unfold conf_total_of. ring. }
  by rewrite !pct_cell_eq.
Qed.

Lemma pooled_cell_eq c m t :
  t = pooled_total m →
  num_mul (num_div (Some c) (Some t)) (Some hundred) = pooled_pct c m.
Proof. intros ->. unfold pooled_pct, num_div, pct. by destruct (decide _). Qed.

(** Lines 113-115 compute the row [summary_row]. *)
Lemma aggregate_summary m : (aggregate (DataFrame m)).2 = summary_row m.
Proof.
  unfold aggregate. cbv zeta. unfold snd.
  unfold summary_row. change [mean_of (fm_Accuracy <$> m); mean_of (fm_AUC <$> m);
   mean_of (fm_Precision <$> m); mean_of (fm_Sensitivity <$> m);
   mean_of (fm_Specificity <$> m);
   pooled_pct (Qc_sum (fm_TruePos <$> m)) m;
   pooled_pct (Qc_sum (fm_FalsePos <$> m)) m;
   pooled_pct (Qc_sum (fm_FalseNeg <$> m)) m;
   pooled_pct (Qc_sum (fm_TrueNeg <$> m)) m] with
   ([mean_of (fm_Accuracy <$> m); mean_of (fm_AUC <$> m);
   mean_of (fm_Precision <$> m); mean_of (fm_Sensitivity <$> m);
   mean_of (fm_Specificity <$> m)] ++
   [pooled_pct (Qc_sum (fm_TruePos <$> m)) m;
   pooled_pct (Qc_sum (fm_FalsePos <$> m)) m;
   pooled_pct (Qc_sum (fm_FalseNeg <$> m)) m;
   pooled_pct (Qc_sum (fm_TrueNeg <$> m)) m]).
  f_equal.
  - pose proof (aggregate_table m) as Ht. unfold aggregate in Ht.
    cbv zeta in Ht. unfold fst in Ht. rewrite Ht. clear Ht.
    unfold mean_axis0, iloc_cols, columns_of.
    rewrite <-!list_fmap_compose.
    cbn [Nat.sub seq fmap list_fmap]. unfold compose.
    rewrite !column_fmap. unfold slice.
    cbn [cells Nat.sub drop take fmap list_fmap app lookup list_lookup mjoin option_join].
    by rewrite !pd_mean_fmap.
  - unfold sum_axis0, iloc_last, DataFrame, columns_of.
    rewrite <-!list_fmap_compose.
    cbn [Nat.sub seq fmap list_fmap]. unfold compose.
    rewrite !column_fmap. unfold last_n.
    cbn [cells length Nat.sub drop take fmap list_fmap app lookup list_lookup mjoin option_join].
    rewrite !np_sum_fmap.
    unfold percentages, np_sum. cbn [foldr fmap list_fmap num_add].
    f_equal; [|f_equal; [|f_equal; [|f_equal]]];
      apply pooled_cell_eq; unfold pooled_total; ring.
Qed.

End AggFacts.

(** ** The summary table *)

Module FrameFacts.

Lemma index_of_cons r fr : index_of (r :: fr) = label r :: index_of fr.
Proof. reflexivity. Qed.

Lemma index_of_loc_set k v fr :
  index_of (loc_set k v fr) =
  if bool_decide (k ∈ index_of fr) then index_of fr else index_of fr ++ [k].
Proof.
  unfold loc_set, index_of. case_bool_decide as Hk.
  - rewrite <-list_fmap_compose. apply list_fmap_ext. intros _ r _. simpl.
    by case_bool_decide.
  - by rewrite fmap_app.
Qed.

Lemma elem_of_index_loc_set k k' v fr :
  k' ∈ index_of (loc_set k v fr) ↔ k' = k ∨ k' ∈ index_of fr.
Proof.
  rewrite index_of_loc_set. case_bool_decide as Hk.
  - split; [tauto|]. by intros [->|?].
  - rewrite elem_of_app, list_elem_of_singleton. tauto.
Qed.

Lemma NoDup_index_loc_set k v fr :
  NoDup (index_of fr) → NoDup (index_of (loc_set k v fr)).
Proof.
  intros Hnd. rewrite index_of_loc_set. case_bool_decide as Hk; [done|].
  apply NoDup_app. split_and!; [done| |apply NoDup_singleton].
  intros x Hx ->%list_elem_of_singleton. done.
Qed.

Lemma loc_get_cons k r fr :
  loc_get k (r :: fr) = if decide (label r = k) then Some (cells r) else loc_get k fr.
Proof.
  unfold loc_get. simpl. case_decide; [done|].
  destruct (list_find _ fr) as [[i x]|]; done.
Qed.

Lemma loc_get_None k fr : k ∉ index_of fr → loc_get k fr = None.
Proof.
  induction fr as [|r fr IH]; [done|].
  rewrite loc_get_cons, index_of_cons, not_elem_of_cons.
  intros [? ?]. rewrite decide_False by done. auto.
Qed.

Lemma loc_get_app_r k v fr :
  k ∉ index_of fr → loc_get k (fr ++ [FrameRow k v]) = Some v.
Proof.
  induction fr as [|r fr IH]; simpl.
  - intros _. rewrite loc_get_cons. simpl. by rewrite decide_True.
  - rewrite not_elem_of_cons. intros [? ?].
    rewrite loc_get_cons, decide_False by done. auto.
Qed.

Lemma loc_get_app_ne k k' v fr :
  k ≠ k' → loc_get k' (fr ++ [FrameRow k v]) = loc_get k' fr.
Proof.
  intros Hne. induction fr as [|r fr IH]; simpl.
  - rewrite loc_get_cons. simpl. by rewrite decide_False.
  - rewrite !loc_get_cons. by case_decide.
Qed.

Lemma loc_get_loc_set k v fr : loc_get k (loc_set k v fr) = Some v.
Proof.
  unfold loc_set. case_bool_decide as Hk; [|by apply loc_get_app_r].
  induction fr as [|r fr IH]; [by apply elem_of_nil in Hk|].
  rewrite fmap_cons, loc_get_cons.
  case_bool_decide as Hr; simpl; [by rewrite decide_True|].
  rewrite decide_False by done. apply IH.
  change (label <$> r :: fr) with (label r :: (label <$> fr)) in Hk.
  apply elem_of_cons in Hk as [?|?]; [congruence|done].
Qed.

Lemma loc_get_loc_set_ne k k' v fr :
  k ≠ k' → loc_get k' (loc_set k v fr) = loc_get k' fr.
Proof.
  intros Hne. unfold loc_set. case_bool_decide as Hk; [|by apply loc_get_app_ne].
  clear Hk. induction fr as [|r fr IH]; [done|].
  rewrite fmap_cons, !loc_get_cons.
  case_bool_decide as Hr; simpl.
  - rewrite decide_False by done. rewrite decide_False by congruence. done.
  - by case_decide.
Qed.

(** A table with distinct labels is read the same in any order of its
    rows. *)
Lemma loc_get_Permutation k fr fr' :
  NoDup (index_of fr) → fr ≡ₚ fr' → loc_get k fr = loc_get k fr'.
Proof.
  intros Hnd Hperm. induction Hperm as [|r fr fr' Hp IH|r1 r2 fr|fr1 fr2 fr3 H1 IH1 H2 IH2].
  - done.
  - rewrite !loc_get_cons. case_decide; [done|].
    apply IH. rewrite index_of_cons in Hnd.
    by apply NoDup_cons in Hnd as [_ ?].
  - rewrite !loc_get_cons. rewrite !index_of_cons in Hnd.
    apply NoDup_cons in Hnd as [Hnd _].
    rewrite not_elem_of_cons in Hnd. destruct Hnd as [Hne _].
    repeat case_decide; congruence.
  - rewrite IH1 by done. apply IH2.
    unfold index_of in *. by rewrite <-H1.
Qed.

Lemma sort_index_Permutation fr : sort_index fr ≡ₚ fr.
Proof. apply merge_sort_Permutation. Qed.

Lemma Sorted_index_sort fr :
  StronglySorted String.le (index_of (sort_index fr)).
Proof.
  unfold index_of, sort_index. apply Sorted_StronglySorted; [apply _|].
  apply (Sorted_fmap label label_le String.le); [done|].
  apply (Sorted_merge_sort label_le).
Qed.

Lemma NoDup_index_sort fr :
  NoDup (index_of fr) → NoDup (index_of (sort_index fr)).
Proof.
  intros Hnd. unfold index_of in *. by rewrite sort_index_Permutation.
Qed.

Lemma loc_get_sort_index k fr :
  NoDup (index_of fr) → loc_get k (sort_index fr) = loc_get k fr.
Proof.
  intros Hnd. symmetry. apply loc_get_Permutation; [done|].
  symmetry. apply sort_index_Permutation.
Qed.

End FrameFacts.

(** ** The loop over the files *)

Section LoopFacts.
Import FrameFacts.

Variable w : World.t.
Variable args : Args.t.

(** The three ways through the body. *)
Lemma process_file_unfold out_stats f log :
  process_file w args out_stats f log =
  match re_search (Args.dtype args) f with
  | None =>
      (Raise (AttributeError "'NoneType' object has no attribute 'group'"),
       log ++ [Eprint (banner f)])
  | Some wdw =>
      if decide (birds_of w (World.read_csv w f) = [])
      then (Raise (ZeroDivisionError "division by zero"),
            log ++ take 4 (file_events w args f wdw))
      else (Ok (loc_set wdw (file_summary w args f wdw) out_stats),
            log ++ file_events w args f wdw)
  end.
Proof.
  unfold process_file, file_events, file_summary.
  unfold bind at 1. unfold emit at 1.
  destruct (re_search (Args.dtype args) f) as [wdw|]; [|done].
  cbv zeta.
  destruct (aggregate (DataFrame (fold_records w args wdw (World.read_csv w f))))
    as [t s].
  unfold bind, emit, raise, ret, concat, pooled_division. cbn [fst snd].
  destruct (decide (birds_of w (World.read_csv w f) = [])) as [Hb|Hb].
  - assert (fold_records w args wdw (World.read_csv w f) = []) as ->.
    { unfold fold_records, fit_tasks. by rewrite Hb. }
    cbn [DataFrame fmap list_fmap take]. rewrite <-!app_assoc. reflexivity.
  - destruct (fold_records w args wdw (World.read_csv w f)) as [|r rs] eqn:Hm.
    { unfold fold_records, fit_tasks in Hm. apply fmap_nil_inv in Hm.
      by apply fmap_nil_inv in Hm. }
    cbn [DataFrame fmap list_fmap].
    destruct (run_predict w <$> predict_tasks w args wdw (World.read_csv w f))
      as [|p ps] eqn:Hp.
    { apply fmap_nil_inv in Hp. unfold predict_tasks in Hp.
      by apply fmap_nil_inv in Hp. }
    unfold ret. cbv beta iota. rewrite <-!app_assoc. reflexivity.
Qed.

Lemma process_file_log out_stats f log :
  ∃ evs, (process_file w args out_stats f log).2 = log ++ evs
         ∧ Forall (λ ev, is_index_write ev = false) evs.
Proof.
  rewrite process_file_unfold.
  destruct (re_search (Args.dtype args) f) as [wdw|]; [|by eexists; split; [done|repeat constructor]].
  case_decide; (eexists; split; [done|]); repeat constructor.
Qed.

Lemma process_file_Ok out_stats f log out_stats' log' :
  process_file w args out_stats f log = (Ok out_stats', log') →
  processable w args f ∧ out_stats' = step w args out_stats f.
Proof.
  rewrite process_file_unfold. unfold processable, step.
  destruct (re_search (Args.dtype args) f) as [wdw|]; [|done].
  case_decide; [done|]. intros [= <- <-]. eauto.
Qed.

Lemma process_file_processable out_stats f log :
  processable w args f →
  ∃ evs, process_file w args out_stats f log
         = (Ok (step w args out_stats f), log ++ evs).
Proof.
  intros [[wdw Hwdw] Hb]. rewrite process_file_unfold. unfold step.
  rewrite Hwdw, decide_False by done. eauto.
Qed.


Lemma process_files_cons out_stats f files log :
  process_files w args out_stats (f :: files) log =
  match process_file w args out_stats f log with
  | (Ok out_stats', log') => process_files w args out_stats' files log'
  | (Raise e, log') => (Raise e, log')
  end.
Proof. reflexivity. Qed.

Lemma process_files_log out_stats files log :
  ∃ evs, (process_files w args out_stats files log).2 = log ++ evs
         ∧ Forall (λ ev, is_index_write ev = false) evs.
Proof.
  revert out_stats log. induction files as [|f files IH]; intros out_stats log.
  { exists []. by rewrite app_nil_r. }
  rewrite process_files_cons.
  destruct (process_file_log out_stats f log) as (evs & Hevs & Hno).
  destruct (process_file w args out_stats f log) as [[st'|e] log'];
    simpl in Hevs; subst log'; [|by exists evs].
  destruct (IH st' (log ++ evs)) as (evs' & -> & Hno').
  exists (evs ++ evs'). rewrite app_assoc. split; [done|].
  by apply Forall_app.
Qed.

Lemma process_files_Ok out_stats files log out_stats' log' :
  process_files w args out_stats files log = (Ok out_stats', log') →
  Forall (processable w args) files
  ∧ out_stats' = foldl (step w args) out_stats files.
Proof.
  revert out_stats log. induction files as [|f files IH]; intros out_stats log.
  { by intros [= <- <-]. }
  rewrite process_files_cons.
  destruct (process_file w args out_stats f log) as [[st'|e] log1] eqn:Hf;
    [|done].
  apply process_file_Ok in Hf as [Hf ->].
  intros [Hfiles ->]%IH. split; [by constructor|done].
Qed.

Lemma process_files_processable out_stats files log :
  Forall (processable w args) files →
  ∃ evs, process_files w args out_stats files log
         = (Ok (foldl (step w args) out_stats files), log ++ evs).
Proof.
  intros Hfiles. revert out_stats log.
  induction Hfiles as [|f files Hf _ IH]; intros out_stats log.
  { exists []. by rewrite app_nil_r. }
  rewrite process_files_cons.
  destruct (process_file_processable out_stats f log Hf) as [evs ->].
  destruct (IH (step w args out_stats f) (log ++ evs)) as [evs' ->].
  exists (evs ++ evs'). by rewrite app_assoc.
Qed.


End LoopFacts.

(** ** The table the loop builds *)

Section SummaryFacts.
Import FrameFacts.

Variable w : World.t.
Variable args : Args.t.

Lemma NoDup_index_step out_stats f :
  NoDup (index_of out_stats) → NoDup (index_of (step w args out_stats f)).
Proof.
  unfold step. destruct (re_search _ f); [|done]. apply NoDup_index_loc_set.
Qed.

Lemma NoDup_index_foldl out_stats files :
  NoDup (index_of out_stats) →
  NoDup (index_of (foldl (step w args) out_stats files)).
Proof.
  revert out_stats. induction files as [|f files IH]; intros out_stats Hnd;
    [done|].
  simpl. by apply IH, NoDup_index_step.
Qed.

Lemma elem_of_index_step k out_stats f :
  k ∈ index_of (step w args out_stats f)
  ↔ k ∈ index_of out_stats ∨ re_search (Args.dtype args) f = Some k.
Proof.
  unfold step. destruct (re_search _ f) as [wdw|].
  - rewrite elem_of_index_loc_set. split.
    + intros [->|?]; auto.
    + intros [?|[= ->]]; auto.
  - split; [auto|]. by intros [?|?].
Qed.

Lemma elem_of_index_foldl k out_stats files :
  k ∈ index_of (foldl (step w args) out_stats files)
  ↔ k ∈ index_of out_stats
    ∨ ∃ f, f ∈ files ∧ re_search (Args.dtype args) f = Some k.
Proof.
  revert out_stats. induction files as [|f files IH]; intros out_stats; simpl.
  - split; [by left|]. intros [?|(f & ?%elem_of_nil & _)]; done.
  - rewrite IH, elem_of_index_step. split.
    + intros [[?|?]|(g & ? & ?)]; [by left|right..].
      * exists f. split; [left|done].
      * exists g. split; [by right|done].
    + intros [?|(g & [->|?]%elem_of_cons & ?)]; [by left; left|by left; right|].
      right. by exists g.
Qed.

Lemma loc_get_foldl_other k out_stats files :
  (∀ g, g ∈ files → re_search (Args.dtype args) g ≠ Some k) →
  loc_get k (foldl (step w args) out_stats files) = loc_get k out_stats.
Proof.
  revert out_stats. induction files as [|f files IH]; intros out_stats Hno;
    [done|].
  simpl. rewrite IH by (intros g ?; apply Hno; by right).
  unfold step. destruct (re_search _ f) as [wdw|] eqn:Hf; [|done].
  apply loc_get_loc_set_ne. intros ->. by apply (Hno f); [left|].
Qed.

(** The row of a window id is the one of the last file that has it. *)
Lemma loc_get_foldl_last wdw out_stats before f after :
  re_search (Args.dtype args) f = Some wdw →
  (∀ g, g ∈ after → re_search (Args.dtype args) g ≠ Some wdw) →
  loc_get wdw (foldl (step w args) out_stats (before ++ f :: after))
  = Some (file_summary w args f wdw).
Proof.
  intros Hf Hafter. rewrite foldl_app. simpl.
  rewrite loc_get_foldl_other by done.
  unfold step at 1. rewrite Hf. apply loc_get_loc_set.
Qed.

End SummaryFacts.

(** ** [main] *)

Section MainFacts.
Import StrFacts FrameFacts.

Variable w : World.t.
Variable args : Args.t.

Lemma elem_of_choices dtype : dtype ∈ choices ↔ dtype = "ACC" ∨ dtype = "IMM".
Proof.
  unfold choices. rewrite !elem_of_cons, elem_of_nil. tauto.
Qed.

Lemma valid_args_checks :
  valid_args args ↔
  bool_decide (Args.dtype args ∈ choices) = true
  ∧ Str.endswith "/" (Args.indir args) = true
  ∧ Str.endswith "/" (Args.outdir args) = true.
Proof.
  unfold valid_args.
  by rewrite bool_decide_eq_true, elem_of_choices, !endswith_spec.
Qed.

(** Past the three assertions. *)
Lemma main_valid log :
  valid_args args →
  main w args log =
  match process_files w args [] (discover w args)
          (log ++ [Eglob (Args.indir args +:+ Args.dtype args +:+ "*.csv")]) with
  | (Ok out_stats, log') =>
      (Ok tt, log' ++ [Eto_csv (summary_path args) true (sort_index out_stats)])
  | (Raise e, log') => (Raise e, log')
  end.
Proof.
  intros (Hd & Hi & Ho)%valid_args_checks. unfold main.
  rewrite Hd, Hi, Ho. unfold assert, bind, emit, ret. cbv beta iota.
  by destruct (process_files _ _ _ _ _) as [[st|e] log'].
Qed.

(** Stopped by an assertion, with nothing logged. *)
Lemma main_invalid log :
  ¬ valid_args args →
  ∃ msg, main w args log = (Raise (AssertionError msg), log).
Proof.
  rewrite valid_args_checks. intros Hinv. unfold main, assert, bind, raise, ret.
  destruct (bool_decide (Args.dtype args ∈ choices)); [|by eexists].
  destruct (Str.endswith "/" (Args.indir args)); [|by eexists].
  destruct (Str.endswith "/" (Args.outdir args)); [|by eexists].
  by destruct Hinv.
Qed.

End MainFacts.

(** * The claims *)

Section Validation.
Import StrFacts.

Variable w : World.t.

Lemma process_files_raise args out_stats files log e log' :
  process_files w args out_stats files log = (Raise e, log') →
  ∀ msg, e ≠ AssertionError msg.
Proof.
  revert out_stats log. induction files as [|f files IH]; intros out_stats log;
    [done|].
  rewrite process_files_cons, process_file_unfold.
  destruct (re_search (Args.dtype args) f) as [wdw|]; [|by intros [= <- _]].
  case_decide; [by intros [= <- _]|]. apply IH.
Qed.

Lemma parse_arguments_unknown a log :
  (∀ t, opt_t a = Some t → t ≠ "ACC" ∧ t ≠ "IMM") →
  parse_arguments a log = (Raise (SystemExit 2), log).
Proof.
  intros Ht. unfold parse_arguments. destruct (opt_t a) as [t|]; [|done].
  rewrite bool_decide_eq_false_2; [done|].
  rewrite elem_of_choices. destruct (Ht t eq_refl). tauto.
Qed.

(** C7: a configuration whose data type is not [ACC] or [IMM], or whose
    input or output directory does not end with the separator, is refused
    before any file is looked for, read or written.  [main] raises its
    [AssertionError] with nothing logged; through the command line an
    unknown data type makes [argparse] leave with status 2, again with
    nothing logged, and a directory without the separator is refused by
    [main] when only the echo of the parameters is on the log.  A valid
    configuration gets past the checks: the next thing is the file
    discovery, and no [AssertionError] is raised later. *)
Theorem invalid_args_refused_first args log :
  (¬ valid_args args →
     ∃ msg, main w args log = (Raise (AssertionError msg), log))
  ∧ (∀ a, (∀ t, opt_t a = Some t → t ≠ "ACC" ∧ t ≠ "IMM") →
       script w a log = (Raise (SystemExit 2), log))
  ∧ (∀ a t, opt_t a = Some t → opt_d a ≠ Some [] →
       (t = "ACC" ∨ t = "IMM") → ¬ valid_args (resolve a t) →
       ∃ msg, script w a log
              = (Raise (AssertionError msg), log ++ [Eecho (resolve a t)]))
  ∧ (valid_args args →
       ∃ r evs,
         main w args log
         = (r, log ++ Eglob (Args.indir args +:+ Args.dtype args +:+ "*.csv")
                      :: evs)
         ∧ ∀ msg, r ≠ Raise (AssertionError msg)).
Proof.
  split_and!.
  - apply main_invalid.
  - intros a Ha. unfold script, bind. by rewrite parse_arguments_unknown.
  - intros a t Ht Hd Hchoice Hinv. unfold script, bind, parse_arguments.
    rewrite Ht, bool_decide_eq_true_2 by by apply elem_of_choices.
    rewrite bool_decide_eq_false_2 by done.
    unfold emit, ret. by apply main_invalid.
  - intros Hvalid. rewrite main_valid by done.
    destruct (process_files_log w args [] (discover w args)
                (log ++ [Eglob (Args.indir args +:+ Args.dtype args +:+ "*.csv")]))
      as (evs & Hevs & _).
    destruct (process_files w args [] (discover w args) _)
      as [[st|e] log'] eqn:Hrun; simpl in Hevs; subst log'.
    + exists (Ok tt), (evs ++ [Eto_csv (summary_path args) true (sort_index st)]).
      split; [|done]. by rewrite <-!app_assoc.
    + exists (Raise e), evs. split; [by rewrite <-app_assoc|].
      intros msg [= ->]. by eapply process_files_raise.
Qed.

End Validation.

Lemma invalid_args_refused_first_witness :
  (∃ msg, main (Example.world []) (Args.Make "in" "out/" "ACC" "Dive" [] 1) []
          = (Raise (AssertionError msg), []))
  ∧ (∃ r evs, main (Example.world ["ACC5_reduced.csv"]) Example.args []
              = (r, [] ++ Eglob "in/ACC*.csv" :: evs)).
Proof.
  split.
  - apply (invalid_args_refused_first (Example.world []) _ []).
    intros (_ & [p Hp] & _). simpl in Hp.
    by destruct p as [|? [|? [|? ?]]].
  - destruct (invalid_args_refused_first (Example.world ["ACC5_reduced.csv"])
                Example.args []) as (_ & _ & _ & H).
    destruct H as (r & evs & Hmain & _).
    { split_and!; [by left|by exists "in"|by exists "out"]. }
    by exists r, evs.
Defined.

(** ** Window-id extraction *)

Module SearchFacts.
Import StrFacts.
#[local] Arguments String.append !_ _ / : simpl nomatch.

Lemma span_digits_spec s d r :
  Str.span_digits s = (d, r) →
  s = d +:+ r ∧ Str.all_digits d = true.
Proof.
  revert d r. induction s as [|a s IH]; intros d r; simpl.
  { by intros [= <- <-]. }
  destruct (Str.is_digit a) eqn:Ha; [|by intros [= <- <-]].
  destruct (Str.span_digits s) as [d' r']. intros [= <- <-].
  destruct (IH _ _ eq_refl) as [-> Hd]. simpl. by rewrite Ha.
Qed.

Lemma span_digits_app d a r :
  Str.all_digits d = true → Str.is_digit a = false →
  Str.span_digits (d +:+ String a r) = (d, String a r).
Proof.
  intros Hd Ha. induction d as [|b d IH]; simpl.
  { by rewrite Ha. }
  simpl in Hd. apply andb_true_iff in Hd as [-> Hd]. by rewrite IH.
Qed.

Lemma match_here_Some dtype s d :
  match_here dtype s = Some d
  ↔ ∃ post, s = "/" +:+ dtype +:+ d +:+ "_reduced" +:+ post
            ∧ d ≠ "" ∧ Str.all_digits d = true.
Proof.
  unfold match_here. cbv zeta. split.
  - destruct (Str.startswith ("/" +:+ dtype) s) eqn:Hs; [|done].
    apply startswith_spec in Hs as [r0 ->]. rewrite drop_app.
    destruct (Str.span_digits r0) as [d' r] eqn:Hspan.
    apply span_digits_spec in Hspan as [-> Hd].
    destruct (bool_decide (d' ≠ "")) eqn:Hne; [|done]. cbn [andb].
    destruct (Str.startswith "_reduced" r) eqn:Hr; [|done].
    apply startswith_spec in Hr as [post ->].
    apply bool_decide_eq_true in Hne. intros [= ->].
    exists post. by rewrite append_assoc.
  - intros (post & -> & Hne & Hd).
    rewrite <-(append_assoc "/" dtype), startswith_app, drop_app.
    change ("_reduced" +:+ post) with (String "_" ("reduced" +:+ post)).
    rewrite span_digits_app by done.
    rewrite bool_decide_eq_true_2 by done. cbn [andb].
    change (String "_" ("reduced" +:+ post)) with ("_reduced" +:+ post).
    by rewrite startswith_app.
Qed.

Lemma re_search_unfold dtype f :
  re_search dtype f =
  match match_here dtype f with
  | Some d => Some d
  | None =>
      match f with
      | "" => None
      | String _ f' => re_search dtype f'
      end
  end.
Proof. by destruct f. Qed.

Lemma re_search_Some dtype f d :
  re_search dtype f = Some d →
  ∃ pre post, f = pre +:+ "/" +:+ dtype +:+ d +:+ "_reduced" +:+ post
              ∧ d ≠ "" ∧ Str.all_digits d = true.
Proof.
  induction f as [|a f IH]; rewrite re_search_unfold.
  - destruct (match_here dtype "") as [d'|] eqn:Hm; [|done].
    intros [= ->]. apply match_here_Some in Hm as (post & ? & ? & ?).
    by exists "", post.
  - destruct (match_here dtype (String a f)) as [d'|] eqn:Hm.
    + intros [= ->]. apply match_here_Some in Hm as (post & ? & ? & ?).
      by exists "", post.
    + intros (pre & post & -> & ? & ?)%IH. by exists (String a pre), post.
Qed.

Lemma re_search_None dtype pre s :
  re_search dtype (pre +:+ s) = None → match_here dtype s = None.
Proof.
  induction pre as [|a pre IH]; rewrite re_search_unfold.
  - change ("" +:+ s) with s. by destruct (match_here dtype s).
  - destruct (match_here dtype (String a pre +:+ s)); [done|]. apply IH.
Qed.

(** The search succeeds exactly on the paths that contain the token. *)
Lemma re_search_is_Some dtype f :
  is_Some (re_search dtype f) ↔ has_window_token dtype f.
Proof.
  split.
  - intros [d (pre & post & ? & ? & ?)%re_search_Some]. by exists pre, d, post.
  - intros (pre & d & post & -> & Hne & Hd).
    destruct (re_search dtype _) as [d'|] eqn:Hs; [done|].
    apply re_search_None in Hs.
    assert (match_here dtype ("/" +:+ dtype +:+ d +:+ "_reduced" +:+ post)
            = Some d) as Hm; [|congruence].
    apply match_here_Some. by exists post.
Qed.

Lemma re_search_None_iff dtype f :
  re_search dtype f = None ↔ ¬ has_window_token dtype f.
Proof.
  rewrite <-re_search_is_Some, <-eq_None_not_Some. done.
Qed.

End SearchFacts.

Section Discovery.
Import StrFacts PathFacts SearchFacts.

Variable w : World.t.
Variable args : Args.t.

Lemma valid_args_dtype : valid_args args → Args.dtype args ∈ choices.
Proof. intros [? _]. by apply elem_of_choices. Qed.

Lemma valid_args_indir :
  valid_args args → Str.endswith "/" (Args.indir args) = true.
Proof. intros (_ & ? & _). by apply endswith_spec. Qed.


(** C8: with data type [ACC] discovery never returns a file whose name
    begins with [IMM], and with [IMM] none whose name begins with [ACC]:
    every returned path is that of a directory entry whose name begins
    with the requested data type (and that name is the base name of the
    path, entries having no separator in their names). *)
Theorem discover_keeps_to_dtype p :
  valid_args args → p ∈ discover w args →
  ∃ d name,
    d ∈ search_dirs (World.iglob_dirs w) (Args.indir args)
    ∧ name ∈ World.scandir w d
    ∧ p = Posixpath.join d name
    ∧ Str.startswith (Args.dtype args) name = true
    ∧ (Args.dtype args = "ACC" → Str.startswith "IMM" name = false)
    ∧ (Args.dtype args = "IMM" → Str.startswith "ACC" name = false)
    ∧ (Str.mem sep name = false → Posixpath.basename p = name).
Proof.
  intros Hvalid Hp. unfold discover in Hp.
  apply elem_of_glob in Hp as (d & name & Hd & Hname & [mid ->] & ->);
    auto using valid_args_dtype, valid_args_indir.
  exists d, (Args.dtype args +:+ mid +:+ ".csv").
  split_and!; [done..|apply startswith_app| | |apply basename_join].
  - by intros ->.
  - by intros ->.
Qed.


End Discovery.


Lemma Example_args_valid : valid_args Example.args.
Proof. split_and!; [by left|by exists "in"|by exists "out"]. Qed.


Lemma discover_keeps_to_dtype_witness :
  ∃ d name, "in/ACC5_reduced.csv" = Posixpath.join d name
            ∧ Str.startswith "IMM" name = false.
Proof.
  destruct (discover_keeps_to_dtype
              (Example.world ["ACC5_reduced.csv"; "IMM5_reduced.csv"])
              Example.args "in/ACC5_reduced.csv" Example_args_valid)
    as (d & name & _ & _ & Hp & _ & Himm & _).
  { vm_compute. apply list_elem_of_here. }
  exists d, name. split; [done|]. by apply Himm.
Defined.


(** ** The folds and the full model *)

Section Folds.

Variable w : World.t.
Variable args : Args.t.

Lemma feature_set data ycol drop :
  (list_to_set (columns data) : gset string) ∖ ({[ ycol ]} ∪ list_to_set drop)
  = list_to_set (filter (is_feature ycol drop) (columns data)).
Proof.
  apply set_eq. intros c.
  rewrite elem_of_difference, elem_of_union, elem_of_singleton,
    !elem_of_list_to_set, list_elem_of_filter.
  unfold is_feature. tauto.
Qed.

Lemma size_list_to_set_remove_dups (l : list string) :
  size (list_to_set l : gset string) = length (remove_dups l).
Proof.
  rewrite <-(size_list_to_set (C:=gset string) (remove_dups l))
    by apply NoDup_remove_dups.
  f_equal. apply set_eq. intros x.
  by rewrite !elem_of_list_to_set, elem_of_remove_dups.
Qed.

(** C9: the input width of the full model is the number of distinct
    columns of the data set that are neither the target column nor on the
    drop list.  It is a set difference: a column listed twice counts once,
    and an entry of the drop list that is already there, that is the target,
    or that is no column of the data set changes nothing.  This is the
    width the body of the loop builds the full model with. *)
Theorem in_shape_counts_features data ycol drop :
  in_shape data ycol drop
  = length (remove_dups (filter (is_feature ycol drop) (columns data)))
  ∧ (NoDup (columns data) →
     in_shape data ycol drop
     = length (filter (is_feature ycol drop) (columns data)))
  ∧ (∀ c, c ∈ drop ∨ c = ycol ∨ c ∉ columns data →
          in_shape data ycol (c :: drop) = in_shape data ycol drop)
  ∧ (∀ out_stats f log out_stats' log',
       process_file w args out_stats f log = (Ok out_stats', log') →
       ∃ wdw,
         re_search (Args.dtype args) f = Some wdw
         ∧ last log'
           = Some (Efull_model
                     (in_shape (World.read_csv w f) (Args.ycol args)
                        (Args.drop args))
                     (full_model_path args wdw))).
Proof.
  split_and!.
  - unfold in_shape. by rewrite feature_set, size_list_to_set_remove_dups.
  - intros Hnd. unfold in_shape. rewrite feature_set.
    by apply size_list_to_set, NoDup_filter.
  - intros c Hc. unfold in_shape. f_equal. apply set_eq. intros x.
    rewrite !elem_of_difference, !elem_of_union, !elem_of_singleton,
      !elem_of_list_to_set, elem_of_cons.
    split; [tauto|]. intros [Hx Hno]. split; [done|].
    intros [->|[->|?]]; [tauto| |tauto].
    destruct Hc as [?|[->|?]]; tauto.
  - intros out_stats f log out_stats' log'. rewrite process_file_unfold.
    destruct (re_search (Args.dtype args) f) as [wdw|]; [|done].
    case_decide; [done|]. intros [= <- <-]. exists wdw. split; [done|].
    unfold file_events. by rewrite last_app.
Qed.

End Folds.

Lemma in_shape_counts_features_witness :
  in_shape Example.data "Dive" ["TagID"; "ix"] = 2%nat
  ∧ in_shape Example.data "Dive" ["ix"; "TagID"; "ix"]
    = in_shape Example.data "Dive" ["TagID"; "ix"]
  ∧ in_shape Example.data "Dive" ["speed"; "TagID"; "ix"]
    = in_shape Example.data "Dive" ["TagID"; "ix"].
Proof.
  destruct (in_shape_counts_features (Example.world []) Example.args
              Example.data "Dive" ["TagID"; "ix"]) as (_ & Hlen & Hdrop & _).
  split_and!.
  - rewrite Hlen; [reflexivity|].
    apply (bool_decide_unpack _). vm_compute. exact I.
  - apply Hdrop. left. apply list_elem_of_further, list_elem_of_here.
  - apply Hdrop. right; right.
    apply (bool_decide_unpack _). vm_compute. exact I.
Defined.

Section Schedule.

Variable w : World.t.
Variable args : Args.t.
Hypothesis Hsets : iterates_sets w.

Lemma NoDup_birds_of data : NoDup (birds_of w data).
Proof. unfold birds_of. rewrite (Hsets _). apply NoDup_elements. Qed.

Lemma elem_of_birds_of data b :
  b ∈ birds_of w data ↔ b ∈ TagID_column data.
Proof.
  unfold birds_of. by rewrite (Hsets _), elem_of_elements, elem_of_list_to_set.
Qed.




End Schedule.


(** ** The metrics *)

Section Metrics.
Import AggFacts.

Variable w : World.t.
Variable args : Args.t.

Lemma pct_sum r :
  conf_total_of r ≠ 0%Qc →
  (pct (fm_TruePos r) (conf_total_of r)
   + pct (fm_FalsePos r) (conf_total_of r)
   + pct (fm_FalseNeg r) (conf_total_of r)
   + pct (fm_TrueNeg r) (conf_total_of r))%Qc = hundred.
Proof.
  unfold pct, conf_total_of.
  generalize (fm_TruePos r) (fm_FalsePos r) (fm_FalseNeg r) (fm_TrueNeg r).
  intros a b c d Ht. field. exact Ht.
Qed.

Lemma metrics_csv_written out_stats f log wdw :
  re_search (Args.dtype args) f = Some wdw →
  Eto_csv (metrics_path args wdw) false
    (aggregate (DataFrame (fold_records w args wdw (World.read_csv w f)))).1
  ∈ (process_file w args out_stats f log).2.
Proof.
  intros Hf. rewrite process_file_unfold, Hf. unfold file_events.
  case_decide; simpl; rewrite elem_of_app; right;
    do 3 apply list_elem_of_further; apply list_elem_of_here.
Qed.

(** C4: in the table of the folds that is written to the metrics CSV, a
    fold whose four confusion counts do not add up to zero has each count
    replaced by its percentage of that fold's own total, count / total *
    100, the five other statistics being left as they were; the four
    percentages of such a fold add up to 100. *)
Theorem fold_counts_become_percentages :
  (∀ m i r,
     m !! i = Some r → conf_total_of r ≠ 0%Qc →
     (aggregate (DataFrame m)).1 !! i = Some (fold_row r)
     ∧ (pct (fm_TruePos r) (conf_total_of r)
        + pct (fm_FalsePos r) (conf_total_of r)
        + pct (fm_FalseNeg r) (conf_total_of r)
        + pct (fm_TrueNeg r) (conf_total_of r))%Qc = hundred)
  ∧ (∀ out_stats f log wdw,
       re_search (Args.dtype args) f = Some wdw →
       Eto_csv (metrics_path args wdw) false
         (aggregate (DataFrame (fold_records w args wdw (World.read_csv w f)))).1
       ∈ (process_file w args out_stats f log).2).
Proof.
  split; [|apply metrics_csv_written].
  intros m i r Hi Ht. split; [|exact (pct_sum r Ht)].
  rewrite aggregate_table, list_lookup_fmap, Hi. simpl.
  unfold fold_row, pct_cell. rewrite !decide_False by done. reflexivity.
Qed.

(** C1: the row that a file adds to the cross-window table, under its
    window id, is made of the means over the folds of Accuracy, AUC,
    Precision, Sensitivity and Specificity, followed by the four pooled
    confusion percentages: the raw counts are added up over the folds and
    each sum is taken as a percentage of the sum of all four.  This is not
    the mean of the percentages of the folds: on folds of different sizes
    the two differ. *)
Theorem summary_row_pools_counts :
  (∀ m, (aggregate (DataFrame m)).2 = summary_row m)
  ∧ (∀ out_stats f log out_stats' log',
       process_file w args out_stats f log = (Ok out_stats', log') →
       ∃ wdw,
         re_search (Args.dtype args) f = Some wdw
         ∧ loc_get wdw out_stats'
           = Some (summary_row (fold_records w args wdw (World.read_csv w f))))
  ∧ Example.fractions (drop 5 (summary_row [Example.fold_A; Example.fold_B]))
    = [Some 50%Q; Some 25%Q; Some 20%Q; Some 5%Q]
  ∧ drop 5 (summary_row Example.uneven_folds)
    ≠ mean_of_fold_percentages Example.uneven_folds.
Proof.
  split_and!.
  - apply aggregate_summary.
  - intros out_stats f log out_stats' log'. rewrite process_file_unfold.
    destruct (re_search (Args.dtype args) f) as [wdw|]; [|done].
    case_decide; [done|]. intros [= <- <-]. exists wdw. split; [done|].
    unfold file_summary. rewrite aggregate_summary.
    apply FrameFacts.loc_get_loc_set.
  - vm_compute. reflexivity.
  - intros H. apply (f_equal Example.fractions) in H. vm_compute in H.
    discriminate.
Qed.

(** On the two folds of the example both readings give (50, 25, 20, 5):
    the folds have the same total. *)
Lemma equal_folds_means_coincide :
  Example.fractions (mean_of_fold_percentages [Example.fold_A; Example.fold_B])
  = Example.fractions (drop 5 (summary_row [Example.fold_A; Example.fold_B])).
Proof. vm_compute. reflexivity. Qed.

End Metrics.

Lemma fold_counts_become_percentages_witness :
  (aggregate (DataFrame [Example.fold_A; Example.fold_B])).1 !! 1%nat
  = Some (fold_row Example.fold_B).
Proof.
  destruct (fold_counts_become_percentages (Example.world []) Example.args)
    as [H _].
  apply (H [Example.fold_A; Example.fold_B] 1%nat Example.fold_B).
  - reflexivity.
  - intros Heq. apply (f_equal this) in Heq. vm_compute in Heq. discriminate.
Defined.

Lemma summary_row_pools_counts_witness :
  ∃ wdw,
    loc_get wdw
      (step (Example.world []) Example.args [] "in/ACC5_reduced.csv")
    = Some (summary_row
              (fold_records (Example.world []) Example.args wdw Example.data)).
Proof.
  destruct (summary_row_pools_counts (Example.world []) Example.args)
    as (_ & H & _).
  destruct (H [] "in/ACC5_reduced.csv" []
              (step (Example.world []) Example.args [] "in/ACC5_reduced.csv")
              ([] ++ file_events (Example.world []) Example.args
                       "in/ACC5_reduced.csv" "5"))
    as (wdw & _ & Hrow).
  { rewrite process_file_unfold. reflexivity. }
  by exists wdw.
Defined.

(** ** Window ids as numbers *)

Module DigitFacts.

Lemma digit_code a :
  Str.is_digit a = true → N_of_ascii a = (48 + digit_value a)%N.
Proof.
  destruct a as [[] [] [] [] [] [] [] []]; intros H; vm_compute in H |- *;
    first [done | discriminate].
Qed.

Lemma digit_value_lt a : (digit_value a < 10)%N.
Proof. destruct a as [[] [] [] [] [] [] [] []]; by vm_compute. Qed.

Lemma digits_value_acc acc s :
  digits_value acc s
  = (acc * 10 ^ N.of_nat (String.length s) + digits_value 0 s)%N.
Proof.
  revert acc. induction s as [|a s IH]; intros acc; simpl String.length.
  { simpl. lia. }
  cbn [digits_value]. rewrite (IH (10 * acc + digit_value a)%N),
    (IH (10 * 0 + digit_value a)%N).
  rewrite Nat2N.inj_succ, N.pow_succ_r'. lia.
Qed.

Lemma digits_value_lt s :
  (digits_value 0 s < 10 ^ N.of_nat (String.length s))%N.
Proof.
  induction s as [|a s IH]; simpl String.length; [simpl; lia|].
  cbn [digits_value]. rewrite digits_value_acc.
  rewrite Nat2N.inj_succ, N.pow_succ_r'.
  pose proof (digit_value_lt a). nia.
Qed.

(** Between strings of digits of the same length the order of the strings
    is the order of the numbers. *)
Lemma digits_le_numeric a b :
  Str.all_digits a = true → Str.all_digits b = true →
  String.length a = String.length b →
  String.le a b → (int_of_digits a ≤ int_of_digits b)%N.
Proof.
  unfold int_of_digits, String.le, String.leb.
  revert b. induction a as [|x a IH]; intros [|y b] Ha Hb Hlen Hle;
    simplify_eq/=; [done|].
  apply andb_true_iff in Ha as [Hx Ha]. apply andb_true_iff in Hb as [Hy Hb].
  rewrite (digits_value_acc _ a), (digits_value_acc _ b), Hlen.
  unfold Ascii.compare in Hle.
  rewrite (digit_code x Hx), (digit_code y Hy) in Hle.
  pose proof (digits_value_lt a) as Hlta. rewrite Hlen in Hlta.
  pose proof (digits_value_lt b) as Hltb.
  destruct (N.compare_spec (48 + digit_value x) (48 + digit_value y))
    as [Heq|Hlt|Hgt].
  - assert (digit_value x = digit_value y) as -> by lia.
    specialize (IH b Ha Hb Hlen Hle). lia.
  - nia.
  - done.
Qed.

End DigitFacts.

Lemma StronglySorted_weaken {A} (R R' : relation A) (l : list A) :
  (∀ a b, a ∈ l → b ∈ l → R a b → R' a b) →
  StronglySorted R l → StronglySorted R' l.
Proof.
  intros HR Hs. induction Hs as [|x l Hs IH Hall]; constructor.
  - apply IH. intros a b ? ?. apply HR; by right.
  - apply Forall_forall. intros y Hy. apply HR; [left|by right|].
    by eapply Forall_forall in Hall.
Qed.

(** ** The cross-window summary *)

Section Summary.
Import FrameFacts.

Variable w : World.t.
Variable args : Args.t.

(** A run that ends well: the configuration was valid, every file went
    through the body, and the last thing logged is the sorted summary. *)
Lemma main_Ok log log' :
  main w args log = (Ok tt, log') →
  valid_args args
  ∧ Forall (processable w args) (discover w args)
  ∧ ∃ evs,
      log' = log ++ evs
             ++ [Eto_csv (summary_path args) true
                   (sort_index (foldl (step w args) [] (discover w args)))]
      ∧ Forall (λ ev, is_index_write ev = false) evs.
Proof.
  intros Hmain.
  assert (valid_args args) as Hvalid.
  { destruct (decide (bool_decide (Args.dtype args ∈ choices) = true
                      ∧ Str.endswith "/" (Args.indir args) = true
                      ∧ Str.endswith "/" (Args.outdir args) = true))
      as [?|Hinv]; [by apply valid_args_checks|].
    rewrite <-valid_args_checks in Hinv.
    destruct (main_invalid w args log Hinv) as [msg Hmsg]. congruence. }
  split; [done|]. rewrite main_valid in Hmain by done.
  set (log1 := log ++ [Eglob _]) in Hmain.
  destruct (process_files_log w args [] (discover w args) log1)
    as (evs & Hevs & Hno).
  destruct (process_files w args [] (discover w args) log1)
    as [[st|e] log2] eqn:Hrun; [|done].
  simpl in Hevs. subst log2.
  apply process_files_Ok in Hrun as [Hfiles ->]. split; [done|].
  injection Hmain as <-. subst log1.
  exists (Eglob (Args.indir args +:+ Args.dtype args +:+ "*.csv") :: evs).
  split; [by rewrite <-!app_assoc|by constructor].
Qed.

(** What the table of a run that ends well is. *)
Lemma main_Ok_table log log' :
  main w args log = (Ok tt, log') →
  let table := sort_index (foldl (step w args) [] (discover w args)) in
  last log' = Some (Eto_csv (summary_path args) true table)
  ∧ NoDup (index_of (foldl (step w args) [] (discover w args)))
  ∧ NoDup (index_of table)
  ∧ (∀ k, k ∈ index_of table
          ↔ ∃ f, f ∈ discover w args ∧ re_search (Args.dtype args) f = Some k).
Proof.
  intros (_ & _ & evs & -> & _)%main_Ok.
  assert (NoDup (index_of (foldl (step w args) [] (discover w args)))) as Hnd.
  { apply NoDup_index_foldl, NoDup_nil_2. }
  split_and!.
  - by rewrite app_assoc, last_snoc.
  - done.
  - by apply NoDup_index_sort.
  - intros k. unfold index_of. rewrite sort_index_Permutation.
    rewrite (elem_of_index_foldl w args k [] (discover w args)).
    split; [intros [[]%elem_of_nil|?]; done|by right].
Qed.

(** C10: the summary that is written has at most one row for a window id.
    Its labels are without repetition, they are the window ids of the
    discovered files, and when several files give the same window id the
    row is the one computed from the last of them that was processed. *)
Theorem one_row_per_window_id log log' :
  main w args log = (Ok tt, log') →
  ∃ table,
    last log' = Some (Eto_csv (summary_path args) true table)
    ∧ NoDup (index_of table)
    ∧ (∀ k, k ∈ index_of table
            ↔ ∃ f, f ∈ discover w args ∧ re_search (Args.dtype args) f = Some k)
    ∧ (∀ before f after wdw,
         discover w args = before ++ f :: after →
         re_search (Args.dtype args) f = Some wdw →
         (∀ g, g ∈ after → re_search (Args.dtype args) g ≠ Some wdw) →
         loc_get wdw table = Some (file_summary w args f wdw)).
Proof.
  intros (Hlast & Hnd & Hnd' & Hin)%main_Ok_table.
  eexists. split_and!; [done..|].
  intros before f after wdw Hfiles Hf Hafter.
  rewrite loc_get_sort_index by done. rewrite Hfiles.
  by apply loc_get_foldl_last.
Qed.

(** What line 135 does to the summary: it is written last, sorted in
    ascending order of its labels, which are strings and are compared
    character by character; the labels are the window ids of the
    discovered files, each once.  This is the order of the window sizes
    only between window ids with the same number of digits. *)
Theorem summary_sorted_as_strings log log' :
  main w args log = (Ok tt, log') →
  ∃ table,
    last log' = Some (Eto_csv (summary_path args) true table)
    ∧ StronglySorted String.le (index_of table)
    ∧ NoDup (index_of table)
    ∧ (∀ k, k ∈ index_of table
            ↔ ∃ f, f ∈ discover w args ∧ re_search (Args.dtype args) f = Some k)
    ∧ ((∀ a b, a ∈ index_of table → b ∈ index_of table →
               String.length a = String.length b) →
       StronglySorted (λ a b, (int_of_digits a ≤ int_of_digits b)%N)
         (index_of table)).
Proof.
  intros (Hlast & _ & Hnd & Hin)%main_Ok_table.
  eexists. split_and!; [done|apply Sorted_index_sort|done..|].
  intros Hlen. eapply StronglySorted_weaken; [|apply Sorted_index_sort].
  intros a b Ha Hb Hle.
  pose proof (Hlen a b Ha Hb) as Hab.
  apply Hin in Ha as (fa & _ & Hfa). apply Hin in Hb as (fb & _ & Hfb).
  apply SearchFacts.re_search_Some in Hfa as (? & ? & _ & _ & ?).
  apply SearchFacts.re_search_Some in Hfb as (? & ? & _ & _ & ?).
  by apply DigitFacts.digits_le_numeric.
Qed.

End Summary.

(** C2: the summary is not written in ascending order of window size.
    Line 135 sorts an index that line 136 names [Window Size (s)], but
    line 92 leaves [wdw] the string the pattern matched, so the labels are
    compared as strings: with the files of the windows 5 and 10 the
    summary is written with the row of 10 above the row of 5. *)
Lemma summary_not_in_numeric_order :
  Example.written_index
    (main (Example.world ["ACC5_reduced.csv"; "ACC10_reduced.csv"])
       Example.args []).2
  = Some ["10"; "5"]
  ∧ ¬ Sorted (λ a b, (int_of_digits a ≤ int_of_digits b)%N) ["10"; "5"].
Proof.
  split; [by vm_compute|].
  intros Hs. apply Sorted_inv in Hs as [_ Hhd]. apply HdRel_inv in Hhd.
  vm_compute in Hhd. by apply Hhd.
Qed.

Lemma one_row_per_window_id_witness :
  ∃ table,
    NoDup (index_of table)
    ∧ loc_get "5" table
      = Some (file_summary
                (Example.world ["ACC5_reduced.csv"; "ACC5_reduced_v2.csv"])
                Example.args "in/ACC5_reduced_v2.csv" "5").
Proof.
  destruct (main (Example.world ["ACC5_reduced.csv"; "ACC5_reduced_v2.csv"])
              Example.args []) as [r log'] eqn:Hrun.
  assert (r = Ok tt) as ->.
  { apply (f_equal fst) in Hrun. vm_compute in Hrun. by symmetry. }
  destruct (one_row_per_window_id _ _ _ _ Hrun)
    as (table & _ & Hnd & _ & Hlast).
  exists table. split; [exact Hnd|].
  apply (Hlast ["in/ACC5_reduced.csv"] "in/ACC5_reduced_v2.csv" []).
  - vm_compute. reflexivity.
  - reflexivity.
  - by intros g ?%elem_of_nil.
Defined.

Lemma summary_sorted_as_strings_witness :
  ∃ table,
    StronglySorted String.le (index_of table)
    ∧ ∀ k, k ∈ index_of table
           ↔ ∃ f, f ∈ discover
                        (Example.world ["ACC5_reduced.csv"; "ACC10_reduced.csv"])
                        Example.args
                  ∧ re_search "ACC" f = Some k.
Proof.
  destruct (main (Example.world ["ACC5_reduced.csv"; "ACC10_reduced.csv"])
              Example.args []) as [r log'] eqn:Hrun.
  assert (r = Ok tt) as ->.
  { apply (f_equal fst) in Hrun. vm_compute in Hrun. by symmetry. }
  destruct (summary_sorted_as_strings _ _ _ _ Hrun)
    as (table & _ & Hsorted & _ & Hin & _).
  by exists table.
Defined.

(** * Further properties *)

(** ** The log of a run *)

Section RunLog.
Import StrFacts.

Variable w : World.t.
Variable args : Args.t.

Lemma run_events_cons f files :
  run_events w args (f :: files)
  = match re_search (Args.dtype args) f with
    | Some wdw => file_events w args f wdw
    | None => []
    end ++ run_events w args files.
Proof. reflexivity. Qed.

Lemma run_events_app files files' :
  run_events w args (files ++ files')
  = run_events w args files ++ run_events w args files'.
Proof. unfold run_events. apply bind_app. Qed.

Lemma process_files_processable_log out_stats files log :
  Forall (processable w args) files →
  process_files w args out_stats files log
  = (Ok (foldl (step w args) out_stats files),
     log ++ run_events w args files).
Proof.
  intros Hfiles. revert out_stats log.
  induction Hfiles as [|f files [[wdw Hwdw] Hb] _ IH]; intros out_stats log.
  { simpl. by rewrite app_nil_r. }
  rewrite process_files_cons, process_file_unfold, run_events_cons.
  cbn [foldl].
  assert (step w args out_stats f
          = loc_set wdw (file_summary w args f wdw) out_stats) as ->.
  { unfold step. by rewrite Hwdw. }
  rewrite Hwdw, decide_False by done.
  by rewrite IH, <-app_assoc.
Qed.

Lemma process_file_failure out_stats f log :
  ¬ processable w args f →
  process_file w args out_stats f log
  = (Raise (failure_of w args f).1, log ++ (failure_of w args f).2).
Proof.
  intros Hf. rewrite process_file_unfold. unfold failure_of, processable in *.
  destruct (re_search (Args.dtype args) f) as [wdw|]; [|done].
  case_decide; [done|]. destruct Hf. eauto.
Qed.

(** X1: a run ends well exactly when the configuration is valid and every
    discovered file has a window id and a bird; its log is then the file
    discovery, the seven events of each file in the order of discovery, and
    the sorted summary, written once, last. *)
Theorem successful_run_log log log' :
  main w args log = (Ok tt, log')
  ↔ valid_args args
    ∧ Forall (processable w args) (discover w args)
    ∧ log' = log ++ Eglob (glob_pattern args)
                 :: run_events w args (discover w args)
                 ++ [Eto_csv (summary_path args) true
                       (sort_index (foldl (step w args) [] (discover w args)))].
Proof.
  split.
  - intros Hmain. destruct (main_Ok w args log log' Hmain) as (Hvalid & Hfiles & _).
    split_and!; [done..|].
    rewrite main_valid, process_files_processable_log in Hmain by done.
    injection Hmain as <-. by rewrite <-!app_assoc.
  - intros (Hvalid & Hfiles & ->).
    rewrite main_valid, process_files_processable_log by done.
    by rewrite <-!app_assoc.
Qed.

(** X2: the first discovered file that has no window id, or no bird, ends
    the run with its exception: an [AttributeError] at line 92 after the
    banner, or a [ZeroDivisionError] at line 115 after the metrics CSV.
    By then the outputs of the files before it have been written in full,
    of the file itself only what precedes the failure; no later file is
    touched and no summary is written. *)
Theorem first_failure_ends_run log before f after :
  valid_args args →
  discover w args = before ++ f :: after →
  Forall (processable w args) before →
  ¬ processable w args f →
  main w args log
  = (Raise (failure_of w args f).1,
     log ++ Eglob (glob_pattern args)
         :: run_events w args before ++ (failure_of w args f).2).
Proof.
  intros Hvalid Hfiles Hbefore Hf. rewrite main_valid, Hfiles by done.
  assert (∀ out_stats log0,
            process_files w args out_stats (before ++ f :: after) log0
            = (Raise (failure_of w args f).1,
               log0 ++ run_events w args before ++ (failure_of w args f).2))
    as ->; [|by rewrite <-!app_assoc].
  clear Hfiles. induction Hbefore as [|g before [[wdw Hwdw] Hb] _ IH];
    intros out_stats log0.
  - simpl app. rewrite process_files_cons, process_file_failure by done.
    done.
  - change ((g :: before) ++ f :: after) with (g :: (before ++ f :: after)).
    rewrite process_files_cons, process_file_unfold, run_events_cons.
    rewrite Hwdw, decide_False by done. by rewrite IH, <-!app_assoc.
Qed.

(** X4: when no entry of the searched directories is a [.csv] file of the
    data type, the run ends well all the same: the log is the file
    discovery and a summary without rows. *)
Theorem no_file_empty_summary log :
  valid_args args →
  (∀ d name, d ∈ search_dirs (World.iglob_dirs w) (Args.indir args) →
             name ∈ World.scandir w d →
             ¬ csv_of_dtype (Args.dtype args) name) →
  main w args log
  = (Ok tt, log ++ [Eglob (glob_pattern args);
                    Eto_csv (summary_path args) true []]).
Proof.
  intros Hvalid Hnone.
  assert (discover w args = []) as Hd.
  { apply elem_of_nil_inv. intros p Hp. unfold discover in Hp.
    apply elem_of_glob in Hp as (d & name & Hd & Hname & Hcsv & _);
      [by eapply Hnone|by apply valid_args_dtype|by apply valid_args_indir]. }
  rewrite main_valid, Hd by done. cbn [process_files]. unfold ret.
  rewrite <-app_assoc. reflexivity.
Qed.

End RunLog.

Lemma first_failure_ends_run_witness :
  (∃ log,
     main (Example.world ["ACC5_reduced.csv"; "ACCnotes.csv"; "ACC7_reduced.csv"])
       Example.args []
     = (Raise (AttributeError "'NoneType' object has no attribute 'group'"), log)
     ∧ length log = 9%nat
     ∧ last log = Some (Eprint (banner "in/ACCnotes.csv")))
  ∧ (∃ log,
       main (Example.sparse_world
               ["ACC5_reduced.csv"; "ACC7_reduced_empty.csv"; "ACC9_reduced.csv"])
         Example.args []
       = (Raise (ZeroDivisionError "division by zero"), log)
       ∧ length log = 12%nat
       ∧ last log = Some (Eto_csv (metrics_path Example.args "7") false [])).
Proof.
  split; eexists; (split; [|split]).
  - apply (first_failure_ends_run
             (Example.world ["ACC5_reduced.csv"; "ACCnotes.csv"; "ACC7_reduced.csv"])
             Example.args [] ["in/ACC5_reduced.csv"] "in/ACCnotes.csv"
             ["in/ACC7_reduced.csv"]).
    + apply Example_args_valid.
    + vm_compute. reflexivity.
    + constructor; [|constructor]. split; [by eexists|]. by vm_compute.
    + intros [[wdw Hwdw] _]. vm_compute in Hwdw. discriminate.
  - reflexivity.
  - reflexivity.
  - apply (first_failure_ends_run
             (Example.sparse_world
                ["ACC5_reduced.csv"; "ACC7_reduced_empty.csv"; "ACC9_reduced.csv"])
             Example.args [] ["in/ACC5_reduced.csv"]
             "in/ACC7_reduced_empty.csv" ["in/ACC9_reduced.csv"]).
    + apply Example_args_valid.
    + vm_compute. reflexivity.
    + constructor; [|constructor]. split; [by eexists|]. by vm_compute.
    + intros [_ Hb]. vm_compute in Hb. by apply Hb.
  - reflexivity.
  - reflexivity.
Defined.

Lemma successful_run_log_witness :
  ∃ log,
    main (Example.world ["ACC5_reduced.csv"; "IMM3_reduced.csv"]) Example.args []
    = (Ok tt, log)
    ∧ length log = 9%nat.
Proof.
  eexists. split.
  - apply (successful_run_log
             (Example.world ["ACC5_reduced.csv"; "IMM3_reduced.csv"])
             Example.args []).
    split_and!; [apply Example_args_valid| |reflexivity].
    apply (bool_decide_unpack _). vm_compute. exact I.
  - reflexivity.
Defined.

(** ** Data sets without rows *)

Section EmptyData.
Import SearchFacts.

Variable w : World.t.
Variable args : Args.t.
Hypothesis Hsets : iterates_sets w.

Lemma birds_of_nil data : birds_of w data = [] ↔ rows data = [].
Proof.
  unfold birds_of. split.
  - intros Hb. pose proof (Hsets (list_to_set (TagID_column data))) as Hp.
    rewrite Hb in Hp. symmetry in Hp. apply Permutation_nil_r in Hp.
    apply elements_empty_inv in Hp. apply leibniz_equiv in Hp.
    destruct (rows data) as [|r rs] eqn:Hr; [done|].
    unfold TagID_column in Hp. rewrite Hr in Hp.
    assert (row_TagID r ∈ (∅ : gset string)) as []%elem_of_empty.
    rewrite <-Hp. rewrite fmap_cons, list_to_set_cons. set_solver.
  - intros Hr. apply Permutation_nil_r. rewrite (Hsets _).
    unfold TagID_column. by rewrite Hr.
Qed.

(** X3: a file can be processed exactly when its path has the window-size
    token and its data set has a row.  On a data set without rows the body
    schedules no fold, writes a metrics CSV without rows, and then fails
    at line 115 with a [ZeroDivisionError]: no prediction is scheduled or
    written and no full model is built. *)
Theorem empty_data_set_fails f :
  (processable w args f
   ↔ has_window_token (Args.dtype args) f ∧ rows (World.read_csv w f) ≠ [])
  ∧ (∀ out_stats log wdw,
       re_search (Args.dtype args) f = Some wdw →
       rows (World.read_csv w f) = [] →
       process_file w args out_stats f log
       = (Raise (ZeroDivisionError "division by zero"),
          log ++ [Eprint (banner f); Eread_csv f; Estarmap_fit [];
                  Eto_csv (metrics_path args wdw) false []])).
Proof.
  split.
  - unfold processable. by rewrite re_search_is_Some, birds_of_nil.
  - intros out_stats log wdw Hwdw Hrows%birds_of_nil.
    rewrite process_file_unfold, Hwdw, decide_True by done.
    unfold file_events, fold_records, fit_tasks, predict_tasks.
    by rewrite Hrows.
Qed.

End EmptyData.

Lemma empty_data_set_fails_witness :
  processable (Example.world []) Example.args "in/ACC5_reduced.csv"
  ∧ process_file (Example.sparse_world []) Example.args []
      "in/ACC7_reduced_empty.csv" []
    = (Raise (ZeroDivisionError "division by zero"),
       [Eprint (banner "in/ACC7_reduced_empty.csv");
        Eread_csv "in/ACC7_reduced_empty.csv"; Estarmap_fit [];
        Eto_csv (metrics_path Example.args "7") false []]).
Proof.
  split.
  - apply (empty_data_set_fails (Example.world []) Example.args).
    + intros s. reflexivity.
    + split; [|done]. apply SearchFacts.re_search_is_Some. by eexists.
  - apply (proj2 (empty_data_set_fails (Example.sparse_world []) Example.args
                    (λ s, reflexivity _) "in/ACC7_reduced_empty.csv")
             [] [] "7").
    + by vm_compute.
    + reflexivity.
Defined.

(** ** The command line *)

Section CommandLine.
Import StrFacts.

Variable w : World.t.

Lemma script_parsed a t log :
  opt_t a = Some t → (t = "ACC" ∨ t = "IMM") → opt_d a ≠ Some [] →
  script w a log = main w (resolve a t) (log ++ [Eecho (resolve a t)]).
Proof.
  intros Ht Hchoice Hd. unfold script, bind, parse_arguments.
  rewrite Ht, bool_decide_eq_true_2 by by apply elem_of_choices.
  by rewrite bool_decide_eq_false_2.
Qed.

Lemma script_refused a log :
  (∀ t, opt_t a = Some t → (t = "ACC" ∨ t = "IMM") → opt_d a = Some []) →
  script w a log = (Raise (SystemExit 2), log).
Proof.
  intros Ha. unfold script, bind, parse_arguments.
  destruct (opt_t a) as [t|]; [|done].
  case_bool_decide as Ht; [|done].
  rewrite bool_decide_eq_true_2; [done|].
  apply (Ha t eq_refl). by apply elem_of_choices.
Qed.

(** What an [AssertionError] of [main] says. *)
Lemma main_AssertionError args log msg log' :
  main w args log = (Raise (AssertionError msg), log') →
  log' = log
  ∧ (msg = "dtype arg must be one of ['ACC', 'IMM']"
       ∧ Args.dtype args ∉ choices
     ∨ msg = "indir arg must end with a forward slash"
       ∧ Str.endswith "/" (Args.indir args) = false
     ∨ msg = "outdir arg must end with a forward slash"
       ∧ Str.endswith "/" (Args.outdir args) = false).
Proof.
  intros Hmain.
  destruct (bool_decide (Args.dtype args ∈ choices)) eqn:Hd.
  2: { unfold main, assert, bind, raise in Hmain. rewrite Hd in Hmain.
       injection Hmain as <- <-. split; [done|]. left. split; [done|].
       by apply bool_decide_eq_false in Hd. }
  destruct (Str.endswith "/" (Args.indir args)) eqn:Hi.
  2: { unfold main, assert, bind, raise, ret in Hmain. rewrite Hd, Hi in Hmain.
       injection Hmain as <- <-. split; [done|]. right; left. done. }
  destruct (Str.endswith "/" (Args.outdir args)) eqn:Ho.
  2: { unfold main, assert, bind, raise, ret in Hmain.
       rewrite Hd, Hi, Ho in Hmain.
       injection Hmain as <- <-. split; [done|]. right; right. done. }
  exfalso. rewrite main_valid in Hmain by by apply valid_args_checks.
  destruct (process_files w args [] (discover w args) _)
    as [[st|e] l] eqn:Hrun; [done|].
  injection Hmain as -> ->. by eapply process_files_raise.
Qed.

(** X5: with [-i] and [-o] left out and a recognised data type, the
    defaults get past the checks of [main]: the parameters are echoed, then
    the files of the data type are looked for in [../Data/Reduced/], and
    no [AssertionError] is raised. *)
Theorem default_directories_pass a t log :
  opt_i a = None → opt_o a = None →
  opt_t a = Some t → (t = "ACC" ∨ t = "IMM") → opt_d a ≠ Some [] →
  ∃ r evs,
    script w a log
    = (r, log ++ Eecho (resolve a t)
              :: Eglob ("../Data/Reduced/" +:+ t +:+ "*.csv") :: evs)
    ∧ ∀ msg, r ≠ Raise (AssertionError msg).
Proof.
  intros Hi Ho Ht Hchoice Hd. rewrite (script_parsed a t) by done.
  assert (valid_args (resolve a t)) as Hvalid.
  { unfold resolve. rewrite Hi, Ho.
    split_and!; [done|by exists "../Data/Reduced"|by exists "../Results"]. }
  destruct (main w (resolve a t) (log ++ [Eecho (resolve a t)]))
    as [r log'] eqn:Hmain.
  pose proof Hmain as Hmain'. rewrite main_valid in Hmain' by done.
  destruct (process_files_log w (resolve a t) [] (discover w (resolve a t))
              ((log ++ [Eecho (resolve a t)])
                 ++ [Eglob (Args.indir (resolve a t)
                            +:+ Args.dtype (resolve a t) +:+ "*.csv")]))
    as (evs & Hevs & _).
  destruct (process_files w (resolve a t) [] _ _) as [[st|e] l];
    cbn [snd] in Hevs; subst l; injection Hmain' as <- <-.
  - exists (Ok tt),
      (evs ++ [Eto_csv (summary_path (resolve a t)) true (sort_index st)]).
    split; [|done]. rewrite Hi, <-!app_assoc. reflexivity.
  - exists (Raise e), evs. split.
    + rewrite Hi, <-!app_assoc. reflexivity.
    + intros msg [= ->]. apply main_AssertionError in Hmain as [_ H].
      apply valid_args_checks in Hvalid as (Hv1 & Hv2 & Hv3).
      apply bool_decide_eq_true in Hv1.
      destruct H as [[_ ?]|[[_ ?]|[_ ?]]]; [done|congruence..].
Qed.

(** X6: through the command line the check of the data type in [main]
    never fails, [argparse] having refused the others: an
    [AssertionError] of the script is about one of the two directories
    not ending with the separator, and only the echo of the parameters
    precedes it. *)
Theorem script_assertion_is_about_directories a log msg log' :
  script w a log = (Raise (AssertionError msg), log') →
  ∃ t, opt_t a = Some t
       ∧ log' = log ++ [Eecho (resolve a t)]
       ∧ (msg = "indir arg must end with a forward slash"
            ∧ Str.endswith "/" (Args.indir (resolve a t)) = false
          ∨ msg = "outdir arg must end with a forward slash"
            ∧ Str.endswith "/" (Args.outdir (resolve a t)) = false).
Proof.
  intros Hrun.
  destruct (opt_t a) as [t|] eqn:Ht.
  2: { rewrite script_refused in Hrun; [done|]. intros t. by rewrite Ht. }
  destruct (decide (t ∈ choices)) as [Hin|Hnot].
  2: { rewrite script_refused in Hrun; [done|]. intros t' Ht' ?.
       rewrite Ht in Ht'. injection Ht' as <-.
       destruct Hnot. by apply elem_of_choices. }
  destruct (decide (opt_d a = Some [])) as [Hd|Hd].
  { rewrite script_refused in Hrun; [done|]. by intros. }
  rewrite (script_parsed a t) in Hrun by (try apply elem_of_choices; done).
  apply main_AssertionError in Hrun as [-> H]. exists t. split_and!; [done..|].
  destruct H as [[_ ?]|[?|?]]; [done|by left|by right].
Qed.

End CommandLine.

Lemma default_directories_pass_witness :
  ∃ r evs,
    script (Example.world []) (Argv None None (Some "IMM") None None None) []
    = (r, [] ++ Eecho (resolve (Argv None None (Some "IMM") None None None) "IMM")
              :: Eglob "../Data/Reduced/IMM*.csv" :: evs).
Proof.
  destruct (default_directories_pass (Example.world [])
              (Argv None None (Some "IMM") None None None) "IMM" [])
    as (r & evs & Hrun & _); [done|done|done|by right|done|].
  by exists r, evs.
Defined.

Lemma script_assertion_is_about_directories_witness :
  ∃ t, opt_t (Argv (Some "in") None (Some "ACC") None None None) = Some t.
Proof.
  destruct (script_assertion_is_about_directories (Example.world [])
              (Argv (Some "in") None (Some "ACC") None None None) []
              "indir arg must end with a forward slash"
              ([] ++ [Eecho (resolve (Argv (Some "in") None (Some "ACC") None None None) "ACC")]))
    as (t & Ht & _).
  { reflexivity. }
  by exists t.
Defined.

(** ** The two passes over the birds *)

Section Passes.
Import StrFacts SearchFacts.

Variable w : World.t.
Variable args : Args.t.

(** Grouping the rows by the distinct values of a key loses and repeats
    nothing. *)
Lemma group_by_key {A} (key : A → string) (ks : list string) (l : list A) :
  NoDup ks → (∀ r, r ∈ l → key r ∈ ks) →
  mjoin ((λ k, filter (λ r, key r = k) l) <$> ks) ≡ₚ l.
Proof.
  intros Hnd. revert l. induction Hnd as [|k ks Hk Hnd IH]; intros l Hl.
  { destruct l as [|r l]; [done|].
    by destruct (elem_of_nil (key r)) as [[] _]; apply Hl; left. }
  rewrite fmap_cons. cbn [mjoin list_join].
  etrans; [|apply (filter_app_complement (λ r, key r = k) l)].
  apply Permutation_app; [done|].
  etrans; [|apply (IH (filter (λ r, ¬ key r = k) l))].
  - apply eq_subrelation; [apply _|]. f_equal. apply Forall_fmap_ext_1.
    apply Forall_forall. intros k' Hk'.
    rewrite list_filter_filter. apply list_filter_iff. intros r.
    split; [|tauto]. intros ->. split; [done|]. by intros ->.
  - intros r [Hr Hin]%list_elem_of_filter. apply Hl in Hin.
    apply elem_of_cons in Hin as [?|?]; done.
Qed.

(** X7: the second pass goes over the birds of the first one in the same
    order and refers to the model file that the fold of the same bird was
    given; the rows handed to it are, taken together, the rows of the data
    set, each once: every row gets a prediction from the model that did
    not train on its bird. *)
Theorem predictions_cover_rows wdw data :
  iterates_sets w →
  (λ t, (pt_modelpath t, pt_rows t)) <$> predict_tasks w args wdw data
  = (λ t, (ft_modelpath t, test_rows data (ft_bird t)))
      <$> fit_tasks w args wdw data
  ∧ mjoin (pt_rows <$> predict_tasks w args wdw data) ≡ₚ rows data.
Proof.
  intros Hsets. split.
  - unfold predict_tasks, fit_tasks. by rewrite <-!list_fmap_compose.
  - unfold predict_tasks. rewrite <-list_fmap_compose.
    apply (group_by_key row_TagID).
    + by apply NoDup_birds_of.
    + intros r Hr. apply elem_of_birds_of; [done|].
      by apply list_elem_of_fmap_2.
Qed.

Lemma append_inj_r s s' t : s +:+ t = s' +:+ t → s = s'.
Proof.
  revert s'. induction s as [|a s IH]; intros [|b s'] H.
  - done.
  - apply (f_equal String.length) in H.
    rewrite !PathFacts.append_length in H. simpl in H. lia.
  - apply (f_equal String.length) in H.
    rewrite !PathFacts.append_length in H. simpl in H. lia.
  - rewrite !append_cons in H. injection H as -> H. f_equal. by apply IH.
Qed.

Lemma digits_prefix_inj d d' r r' :
  Str.all_digits d = true → Str.all_digits d' = true →
  d +:+ String "_" r = d' +:+ String "_" r' → d = d' ∧ r = r'.
Proof.
  intros Hd Hd' Heq.
  pose proof (span_digits_app d "_" r Hd eq_refl) as H1.
  pose proof (span_digits_app d' "_" r' Hd' eq_refl) as H2.
  rewrite Heq, H2 in H1. by injection H1 as -> ->.
Qed.

(** X8: the files of a window are named after its window id and, for the
    models of the folds, the bird, without clashes: two window ids made of
    digits give different metrics, predictions and full-model files, and a
    fold's model file determines both the window id and the bird.  So the
    only outputs that overwrite one another are those of files with the
    same window id. *)
Theorem output_paths_distinct wdw wdw' :
  Str.all_digits wdw = true → Str.all_digits wdw' = true →
  (metrics_path args wdw = metrics_path args wdw' → wdw = wdw')
  ∧ (predictions_path args wdw = predictions_path args wdw' → wdw = wdw')
  ∧ (full_model_path args wdw = full_model_path args wdw' → wdw = wdw')
  ∧ (∀ bird bird',
       fold_model_path args wdw bird = fold_model_path args wdw' bird' →
       wdw = wdw' ∧ bird = bird').
Proof.
  intros Hd Hd'.
  unfold metrics_path, predictions_path, full_model_path, fold_model_path.
  split_and!.
  - intros H. do 3 apply (inj (String.app _)) in H.
    by apply (digits_prefix_inj _ _ "xval_metrics_keras.csv"
                "xval_metrics_keras.csv") in H as [? _].
  - intros H. do 3 apply (inj (String.app _)) in H.
    by apply (digits_prefix_inj _ _ "xval_predictions.csv"
                "xval_predictions.csv") in H as [? _].
  - intros H. do 3 apply (inj (String.app _)) in H.
    by apply (digits_prefix_inj _ _ "Keras/full_model.h5"
                "Keras/full_model.h5") in H as [? _].
  - intros bird bird' H. do 3 apply (inj (String.app _)) in H.
    apply (digits_prefix_inj _ _ ("Keras/" +:+ bird +:+ "_withheld.h5")
             ("Keras/" +:+ bird' +:+ "_withheld.h5")) in H as [-> H];
      [|done..].
    split; [done|]. apply (inj (String.app _)) in H.
    by apply append_inj_r in H.
Qed.

End Passes.

Lemma predictions_cover_rows_witness :
  mjoin (pt_rows <$> predict_tasks (Example.world []) Example.args "5"
                       Example.data)
  ≡ₚ rows Example.data.
Proof.
  apply (predictions_cover_rows (Example.world []) Example.args "5"
           Example.data).
  intros s. reflexivity.
Defined.

Lemma output_paths_distinct_witness :
  "5" = "5" ∧ "A" = "A".
Proof.
  destruct (output_paths_distinct Example.args "5" "5" eq_refl eq_refl)
    as (_ & _ & _ & H).
  apply (H "A" "A"). reflexivity.
Defined.

(** ** What the summary does not depend on *)

Section IndependenceFacts.
Import AggFacts FrameFacts.

Variable w : World.t.
Variable args : Args.t.





Lemma main_processable log :
  valid_args args → Forall (processable w args) (discover w args) →
  ∃ evs,
    main w args log
    = (Ok tt, log ++ evs
              ++ [Eto_csv (summary_path args) true
                    (sort_index (foldl (step w args) [] (discover w args)))]).
Proof.
  intros Hvalid Hfiles. rewrite main_valid by done.
  destruct (process_files_processable w args [] (discover w args)
              (log ++ [Eglob (Args.indir args +:+ Args.dtype args +:+ "*.csv")])
              Hfiles) as [evs ->].
  eexists (_ :: evs). by rewrite <-!app_assoc.
Qed.

End IndependenceFacts.

Section Independence.
Import AggFacts FrameFacts.

Variable w : World.t.
Variable args : Args.t.



(** Two tables with the same distinct labels in the same order, read the
    same under every label, are the same table. *)
Lemma frame_eq (a b : frame) :
  index_of a = index_of b → NoDup (index_of a) →
  (∀ k, loc_get k a = loc_get k b) → a = b.
Proof.
  revert b. induction a as [|r a IH]; intros [|r' b] Hidx Hnd Hget;
    try done.
  rewrite !index_of_cons in Hidx. injection Hidx as Hl Hidx.
  rewrite index_of_cons in Hnd. apply NoDup_cons in Hnd as [Hr Hnd].
  f_equal.
  - specialize (Hget (label r)). rewrite !loc_get_cons in Hget.
    rewrite !decide_True in Hget by done.
    destruct r, r'. simpl in *. congruence.
  - apply IH; [done..|]. intros k.
    destruct (decide (label r = k)) as [<-|Hne].
    + rewrite !loc_get_None; [done|by rewrite <-Hidx|done].
    + specialize (Hget k). rewrite !loc_get_cons in Hget.
      by rewrite !decide_False in Hget by congruence.
Qed.

(** When the window ids of the files are distinct, the row of a window id
    is the one of its file. *)
Lemma loc_get_foldl_unique out_stats files f k :
  NoDup (window_ids args files) → f ∈ files →
  re_search (Args.dtype args) f = Some k →
  loc_get k (foldl (step w args) out_stats files)
  = Some (file_summary w args f k).
Proof.
  intros Hnd (before & after & ->)%list_elem_of_split Hf.
  apply loc_get_foldl_last; [done|]. intros g Hg Hgk.
  unfold window_ids in Hnd. rewrite omap_app in Hnd.
  apply NoDup_app in Hnd as (_ & _ & Hnd). simpl in Hnd. rewrite Hf in Hnd.
  apply NoDup_cons in Hnd as [Hk _]. apply Hk.
  apply list_elem_of_omap. eauto.
Qed.

(** With distinct window ids the sorted table is the same for the files
    in any order. *)
Lemma sorted_summary_Permutation files files' :
  files ≡ₚ files' → NoDup (window_ids args files) →
  sort_index (foldl (step w args) [] files)
  = sort_index (foldl (step w args) [] files').
Proof.
  intros Hp Hnd.
  assert (NoDup (window_ids args files')) as Hnd'.
  { unfold window_ids in *. by rewrite <-Hp. }
  assert (NoDup (index_of (foldl (step w args) [] files))) as HS.
  { apply NoDup_index_foldl, NoDup_nil_2. }
  assert (NoDup (index_of (foldl (step w args) [] files'))) as HS'.
  { apply NoDup_index_foldl, NoDup_nil_2. }
  assert (∀ k, k ∈ index_of (foldl (step w args) [] files)
               ↔ k ∈ index_of (foldl (step w args) [] files')) as Hin.
  { intros k. rewrite !elem_of_index_foldl. by setoid_rewrite Hp. }
  apply frame_eq.
  - apply (StronglySorted_unique String.le); [apply Sorted_index_sort..|].
    unfold index_of. rewrite !sort_index_Permutation.
    by apply NoDup_Permutation.
  - by apply NoDup_index_sort.
  - intros k. rewrite !loc_get_sort_index by done.
    destruct (decide (k ∈ index_of (foldl (step w args) [] files)))
      as [Hk|Hk].
    + pose proof Hk as Hk'. apply elem_of_index_foldl in Hk'
        as [[]%elem_of_nil|(f & Hf & Hfk)].
      rewrite (loc_get_foldl_unique _ files f) by done.
      rewrite (loc_get_foldl_unique _ files' f); [done..| |done].
      by rewrite <-Hp.
    + rewrite !loc_get_None; [done| |done]. by rewrite <-Hin.
Qed.

Lemma bind_Permutation_pointwise {A B} (f g : A → list B) (l : list A) :
  (∀ x, f x ≡ₚ g x) → l ≫= f ≡ₚ l ≫= g.
Proof.
  intros Hfg. induction l as [|x l IH]; [done|].
  csimpl. by rewrite (Hfg x), IH.
Qed.

(** Listing the directories another way permutes what [glob] returns. *)
Lemma glob_Permutation sc sc' ig pathname :
  (∀ d, sc' d ≡ₚ sc d) → glob sc' ig pathname ≡ₚ glob sc ig pathname.
Proof.
  intros Hsc. unfold glob.
  assert (∀ d pat, glob1 sc' d pat ≡ₚ glob1 sc d pat) as H1.
  { intros d pat. unfold glob1. by destruct (ishidden pat); rewrite (Hsc d). }
  destruct (Posixpath.split pathname) as [dirname basename].
  case_bool_decide; [done|].
  apply bind_Permutation_pointwise. intros d. by rewrite H1.
Qed.

(** X10: when the discovered files have distinct window ids, the summary
    does not depend on the order in which the directory is listed.  If a
    run ends well, so does the run in a world that lists the same entries
    in another order, and both write the same summary table. *)
Theorem summary_independent_of_listing_order scandir' log log1 :
  (∀ d, scandir' d ≡ₚ World.scandir w d) →
  NoDup (window_ids args (discover w args)) →
  main w args log = (Ok tt, log1) →
  ∃ log2,
    main (with_scandir w scandir') args log = (Ok tt, log2)
    ∧ last log2 = last log1.
Proof.
  intros Hsc Hnd (Hvalid & Hfiles & evs & -> & _)%main_Ok.
  assert (discover (with_scandir w scandir') args ≡ₚ discover w args) as Hp.
  { unfold discover. by apply glob_Permutation. }
  destruct (main_processable (with_scandir w scandir') args log Hvalid)
    as [evs' ->].
  { rewrite Hp. exact Hfiles. }
  eexists. split; [done|].
  rewrite !app_assoc, !last_snoc. do 2 f_equal.
  change (step (with_scandir w scandir') args) with (step w args).
  symmetry. by apply sorted_summary_Permutation.
Qed.

End Independence.


Lemma summary_independent_of_listing_order_witness :
  ∃ log2,
    main (with_scandir (Example.world ["ACC5_reduced.csv"; "ACC10_reduced.csv"])
            (λ _, ["ACC10_reduced.csv"; "ACC5_reduced.csv"]))
      Example.args []
    = (Ok tt, log2).
Proof.
  destruct (main (Example.world ["ACC5_reduced.csv"; "ACC10_reduced.csv"])
              Example.args []) as [r log1] eqn:Hrun.
  assert (r = Ok tt) as ->.
  { apply (f_equal fst) in Hrun. vm_compute in Hrun. by symmetry. }
  destruct (summary_independent_of_listing_order
              (Example.world ["ACC5_reduced.csv"; "ACC10_reduced.csv"])
              Example.args (λ _, ["ACC10_reduced.csv"; "ACC5_reduced.csv"])
              [] log1) as (log2 & Hrun2 & _).
  - intros d. apply Permutation_swap.
  - apply (bool_decide_unpack _). vm_compute. exact I.
  - exact Hrun.
  - by exists log2.
Defined.


(** ** More on the metrics *)

Section MoreMetrics.
Import AggFacts FrameFacts.

Lemma hundred_ne_0 : hundred ≠ 0%Qc.
Proof. intros H. apply (f_equal this) in H. discriminate. Qed.

(** X11: when the counts of all the folds together are not zero, the four
    pooled percentages of the row of the summary are finite and add up to
    100; when there are folds and their counts together are zero, all four
    are not finite.  (Without any fold there is no row of the summary:
    line 115 raises, see [pooled_division].) *)
Theorem pooled_percentages_sum m :
  (pooled_total m ≠ 0%Qc →
   ∃ a b c d,
     drop 5 (aggregate (DataFrame m)).2 = [Some a; Some b; Some c; Some d]
     ∧ (a + b + c + d)%Qc = hundred)
  ∧ (m ≠ [] → pooled_total m = 0%Qc →
     pooled_division (DataFrame m) [] = (Ok tt, [])
     ∧ drop 5 (aggregate (DataFrame m)).2 = [None; None; None; None]).
Proof.
  split.
  - intros Ht. rewrite aggregate_summary. unfold summary_row, pooled_pct.
    cbn [drop]. rewrite !decide_False by done.
    eexists _, _, _, _. split; [done|].
    unfold pct. revert Ht. unfold pooled_total.
    generalize (Qc_sum (fm_TruePos <$> m)) (Qc_sum (fm_FalsePos <$> m))
      (Qc_sum (fm_FalseNeg <$> m)) (Qc_sum (fm_TrueNeg <$> m)).
    intros a b c d Ht. field. exact Ht.
  - intros Hm Ht. split.
    + by destruct m.
    + rewrite aggregate_summary. unfold summary_row, pooled_pct. cbn [drop].
      by rewrite !decide_True by done.
Qed.

(** X13: a fold whose four confusion counts add up to zero gets four
    percentages that are not finite in the table of the folds, its label
    and its five other statistics staying as they were. *)
Theorem zero_total_fold_row m i r :
  m !! i = Some r → conf_total_of r = 0%Qc →
  (aggregate (DataFrame m)).1 !! i
  = Some (FrameRow (fm_TagID r)
            [Some (fm_Accuracy r); Some (fm_AUC r); Some (fm_Precision r);
             Some (fm_Sensitivity r); Some (fm_Specificity r);
             None; None; None; None]).
Proof.
  intros Hi Ht. rewrite aggregate_table, list_lookup_fmap, Hi. simpl.
  unfold pct_cell. by rewrite !decide_True by done.
Qed.






End MoreMetrics.


Lemma pooled_percentages_sum_witness :
  (∃ a b c d,
     drop 5 (aggregate (DataFrame Example.uneven_folds)).2
     = [Some a; Some b; Some c; Some d]
     ∧ (a + b + c + d)%Qc = hundred)
  ∧ drop 5 (aggregate (DataFrame [FoldMetrics "A" 1 1 1 1 1 0 0 0 0])).2
    = [None; None; None; None].
Proof.
  split.
  - apply (pooled_percentages_sum Example.uneven_folds).
    intros H. apply (f_equal this) in H. vm_compute in H. discriminate.
  - apply (pooled_percentages_sum [FoldMetrics "A" 1 1 1 1 1 0 0 0 0]).
    + discriminate.
    + by apply Qc_is_canon.
Defined.

Lemma zero_total_fold_row_witness :
  (aggregate
     (DataFrame
        [FoldMetrics "A" 1 1 1 1 1 0 0 0 0])).1 !! 0%nat
  = Some (FrameRow "A" [Some 1%Qc; Some 1%Qc; Some 1%Qc; Some 1%Qc; Some 1%Qc;
                        None; None; None; None]).
Proof.
  apply (zero_total_fold_row [FoldMetrics "A" 1 1 1 1 1 0 0 0 0] 0%nat
           (FoldMetrics "A" 1 1 1 1 1 0 0 0 0)).
  - reflexivity.
  - by apply Qc_is_canon.
Defined.

(** ** The window id of a path *)

Section WindowId.
Import StrFacts SearchFacts.

Lemma all_digits_no_sep d : Str.all_digits d = true → Str.mem sep d = false.
Proof.
  induction d as [|a d IH]; [done|]. cbn [Str.all_digits Str.mem].
  intros [Ha Hd]%andb_true_iff. rewrite (IH Hd).
  rewrite orb_false_r. apply bool_decide_eq_false.
  intros Heq. subst a. by vm_compute in Ha.
Qed.

(** A text without separator that is followed by a separator and starts
    where another text without separator starts... *)
Lemma prefix_before_sep body s rest post :
  Str.mem sep body = false →
  s +:+ String sep rest = body +:+ post → ∃ q, s = body +:+ q.
Proof.
  revert s. induction body as [|b body IH]; intros s Hbody Heq.
  { by exists s. }
  simpl in Hbody. apply orb_false_iff in Hbody as [Hb Hbody].
  apply bool_decide_eq_false in Hb.
  destruct s as [|c s].
  - change ("" +:+ String sep rest) with (String sep rest) in Heq.
    rewrite append_cons in Heq. injection Heq as Hc _. congruence.
  - rewrite !append_cons in Heq. injection Heq as -> Heq.
    destruct (IH s Hbody Heq) as [q ->]. by exists q.
Qed.

Lemma has_window_token_cons dtype a pre :
  has_window_token dtype pre → has_window_token dtype (String a pre).
Proof.
  intros (p & d & post & -> & ? & ?). by exists (String a p), d, post.
Qed.

(** X14: the window id extracted from a path is the digits of its first
    token.  When the text before the token [/<dtype><digits>_reduced]
    has no token of its own, the search gives these digits, whatever
    follows; so for a file named by the convention, in a directory whose
    path has no token, the window id is the number in the file name. *)
Theorem window_id_of_conventional_path dtype pre d post :
  Str.mem sep dtype = false → ¬ has_window_token dtype pre →
  d ≠ "" → Str.all_digits d = true →
  re_search dtype (pre +:+ "/" +:+ dtype +:+ d +:+ "_reduced" +:+ post)
  = Some d
  ∧ (pre ≠ "" →
     re_search dtype
       (Posixpath.join pre (dtype +:+ d +:+ "_reduced" +:+ post))
     = Some d).
Proof.
  intros Hdtype Hpre Hne Hd.
  assert (∀ pre, ¬ has_window_token dtype pre →
            re_search dtype (pre +:+ "/" +:+ dtype +:+ d +:+ "_reduced" +:+ post)
            = Some d) as Hsearch.
  { clear pre Hpre. intros pre Hpre. induction pre as [|a pre IH].
    - change ("" +:+ ?s) with s. rewrite re_search_unfold.
      assert (match_here dtype ("/" +:+ dtype +:+ d +:+ "_reduced" +:+ post)
              = Some d) as ->; [|done].
      apply match_here_Some. by exists post.
    - rewrite re_search_unfold.
      destruct (match_here dtype _) as [d0|] eqn:Hm.
      + exfalso. apply match_here_Some in Hm as (post0 & Heq & Hne0 & Hd0).
        rewrite append_cons in Heq.
        change ("/" +:+ dtype +:+ d0 +:+ "_reduced" +:+ post0)
          with (String sep (dtype +:+ d0 +:+ "_reduced" +:+ post0)) in Heq.
        injection Heq as -> Heq.
        change ("/" +:+ dtype +:+ d +:+ "_reduced" +:+ post)
          with (String sep (dtype +:+ d +:+ "_reduced" +:+ post)) in Heq.
        rewrite <-!(append_assoc dtype), <-(append_assoc (dtype +:+ d0)) in Heq.
        apply prefix_before_sep in Heq as [q ->].
        * apply Hpre. exists "", d0, q. split; [|done].
          by rewrite !append_assoc.
        * rewrite !mem_app, Hdtype, all_digits_no_sep by done. done.
      + rewrite append_cons. apply IH. intros H. apply Hpre.
        by apply has_window_token_cons. }
  split; [by apply Hsearch|]. intros Hpre0. unfold Posixpath.join.
  assert (Str.startswith "/" (dtype +:+ d +:+ "_reduced" +:+ post) = false)
    as ->.
  { apply not_true_is_false. intros [r Hr]%startswith_spec.
    assert (Str.mem sep (dtype +:+ d) = false) as Hno.
    { by rewrite mem_app, Hdtype, all_digits_no_sep. }
    destruct dtype as [|c dtype'].
    - destruct d as [|c d']; [done|]. rewrite !append_cons in Hr.
      change ("" +:+ String c (d' +:+ "_reduced" +:+ post))
        with (String c (d' +:+ "_reduced" +:+ post)) in Hr.
      change ("/" +:+ r) with (String sep r) in Hr. injection Hr as -> _.
      simpl in Hd. done.
    - rewrite append_cons in Hr. change ("/" +:+ r) with (String sep r) in Hr.
      injection Hr as -> _. simpl in Hdtype. done. }
  rewrite bool_decide_eq_false_2 by done. cbn [orb].
  destruct (Str.endswith "/" pre) eqn:Hend.
  - apply endswith_spec in Hend as [h ->]. rewrite append_assoc.
    apply Hsearch. intros (p & d1 & post1 & -> & ? & ?). apply Hpre.
    exists p, d1, (post1 +:+ "/"). split; [|done].
    by rewrite !append_assoc.
  - by apply Hsearch.
Qed.

End WindowId.

Lemma window_id_of_conventional_path_witness :
  re_search "ACC" (Posixpath.join "../Data/Reduced" "ACC150_reduced_v2.csv")
  = Some "150".
Proof.
  apply (window_id_of_conventional_path "ACC" "../Data/Reduced" "150" "_v2.csv").
  - reflexivity.
  - apply SearchFacts.re_search_None_iff. reflexivity.
  - done.
  - reflexivity.
  - done.
Defined.

(** ** Widths *)

Section Widths.
Import AggFacts FrameFacts.

Variable w : World.t.
Variable args : Args.t.

(** X15: when the columns of the data set are distinct and the target
    column and the entries of the drop list are distinct columns of it,
    the input width of the full model is the number of columns less one
    for the target and one for each entry of the drop list. *)
Theorem in_shape_arithmetic data ycol drop :
  NoDup (columns data) → NoDup (ycol :: drop) →
  (∀ c, c ∈ ycol :: drop → c ∈ columns data) →
  (in_shape data ycol drop + S (length drop) = length (columns data))%nat.
Proof.
  intros Hcols Hdrop Hsub. unfold in_shape.
  assert (({[ ycol ]} ∪ list_to_set drop : gset string)
          = list_to_set (ycol :: drop)) as -> by done.
  assert ((list_to_set (ycol :: drop) : gset string)
            ⊆ list_to_set (columns data)) as Hsubset.
  { intros c. rewrite !elem_of_list_to_set. apply Hsub. }
  rewrite size_difference by done.
  apply subseteq_size in Hsubset.
  rewrite !size_list_to_set in * by done. simpl in *. lia.
Qed.

Lemma Forall_loc_set (P : frame_row → Prop) k v fr :
  P (FrameRow k v) → Forall P fr → Forall P (loc_set k v fr).
Proof.
  intros Hkv Hfr. unfold loc_set. case_bool_decide.
  - apply Forall_fmap. eapply Forall_impl; [exact Hfr|].
    intros r Hr. simpl. by case_bool_decide.
  - apply Forall_app. split; [done|]. by constructor.
Qed.

(** X16: the tables keep the shape of their header.  The table of the
    folds has one row per record, labelled by its bird in the order of the
    records, and nine numeric cells in each row; the row of the summary has
    nine cells, one per metric; and every row of the summary that a run
    writes has nine cells. *)
Theorem tables_match_metrics :
  (∀ m,
     index_of (aggregate (DataFrame m)).1 = fm_TagID <$> m
     ∧ Forall (λ r, length (cells r) = length metrics)
         (aggregate (DataFrame m)).1
     ∧ length (aggregate (DataFrame m)).2 = length metrics)
  ∧ (∀ log log',
       main w args log = (Ok tt, log') →
       ∃ table,
         last log' = Some (Eto_csv (summary_path args) true table)
         ∧ Forall (λ r, length (cells r) = length metrics) table).
Proof.
  split.
  - intros m. rewrite aggregate_table, aggregate_summary. split_and!.
    + unfold index_of. by rewrite <-list_fmap_compose.
    + apply Forall_fmap, Forall_true. done.
    + done.
  - intros log log' (Hlast & _)%main_Ok_table. eexists. split; [done|].
    rewrite sort_index_Permutation.
    generalize (discover w args). intros files.
    assert (∀ (st : frame),
              Forall (λ r, length (cells r) = length metrics) st →
              Forall (λ r, length (cells r) = length metrics)
                (foldl (step w args) st files)) as H; [|by apply H].
    induction files as [|f files IH]; intros st Hst; [done|].
    simpl. apply IH. unfold step.
    destruct (re_search (Args.dtype args) f) as [wdw|]; [|done].
    apply Forall_loc_set; [|done]. cbn [cells].
    unfold file_summary. by rewrite aggregate_summary.
Qed.

End Widths.

Lemma in_shape_arithmetic_witness :
  (in_shape Example.data "Dive" ["TagID"; "ix"] + 3 = 5)%nat.
Proof.
  apply (in_shape_arithmetic Example.data "Dive" ["TagID"; "ix"]).
  - apply (bool_decide_unpack _). vm_compute. exact I.
  - apply (bool_decide_unpack _). vm_compute. exact I.
  - intros c Hc. apply (bool_decide_unpack _).
    apply elem_of_cons in Hc as [->|Hc]; [by vm_compute|].
    apply elem_of_cons in Hc as [->|Hc]; [by vm_compute|].
    apply elem_of_cons in Hc as [->|Hc]; [by vm_compute|].
    by apply elem_of_nil in Hc.
Defined.

Lemma tables_match_metrics_witness :
  ∃ table,
    Forall (λ r, length (cells r) = length metrics) table
    ∧ length table = 1%nat.
Proof.
  destruct (main (Example.world ["ACC5_reduced.csv"]) Example.args [])
    as [r log'] eqn:Hrun.
  assert (r = Ok tt) as ->.
  { apply (f_equal fst) in Hrun. vm_compute in Hrun. by symmetry. }
  destruct (tables_match_metrics (Example.world ["ACC5_reduced.csv"])
              Example.args) as [_ H].
  destruct (H [] log' Hrun) as (table & Hlast & Hall).
  exists table. split; [exact Hall|].
  apply (f_equal snd) in Hrun. cbn [snd] in Hrun. subst log'.
  apply (f_equal (λ o, match o with
                       | Some (Eto_csv _ _ t) => length t
                       | _ => 0%nat
                       end)) in Hlast.
  rewrite <-Hlast. vm_compute. reflexivity.
Defined.

(** ** Each file once, each row its own *)

Section Once.
Import StrFacts PathFacts FrameFacts.

Variable w : World.t.
Variable args : Args.t.

Lemma join_inj d x y :
  Str.startswith "/" x = false → Str.startswith "/" y = false →
  Posixpath.join d x = Posixpath.join d y → x = y.
Proof.
  intros Hx Hy. unfold Posixpath.join. rewrite Hx, Hy.
  destruct (bool_decide (d = "") || Str.endswith "/" d); intros H.
  - by apply (inj (String.app d)) in H.
  - by do 2 apply (inj (String.app _)) in H.
Qed.

Lemma csv_of_dtype_relative dtype name :
  dtype ∈ choices → csv_of_dtype dtype name → Str.startswith "/" name = false.
Proof.
  unfold choices. rewrite !elem_of_cons.
  by intros [->|[->|?%elem_of_nil]] [mid ->].
Qed.

(** X17: when the input directory has no wildcard of its own and its
    listing names no entry twice, no file is discovered twice: every file
    is processed once. *)
Theorem discover_NoDup :
  valid_args args →
  has_magic (dirname_of (Args.indir args)) = false →
  NoDup (World.scandir w (dirname_of (Args.indir args))) →
  NoDup (discover w args).
Proof.
  intros Hvalid Hmagic Hnd. unfold discover, glob.
  rewrite split_pattern
    by auto using choices_no_sep, valid_args_dtype, valid_args_indir.
  rewrite bool_decide_eq_false_2
    by by apply dirname_of_nonempty, valid_args_indir.
  rewrite Hmagic, andb_false_r. cbn [mbind list_bind]. rewrite app_nil_r.
  apply NoDup_fmap_2_strong.
  - intros x y Hx Hy.
    apply (elem_of_glob1 _ (World.iglob_dirs w)) in Hx as [_ Hx];
      [|by apply valid_args_dtype].
    apply (elem_of_glob1 _ (World.iglob_dirs w)) in Hy as [_ Hy];
      [|by apply valid_args_dtype].
    apply join_inj; eapply csv_of_dtype_relative;
      eauto using valid_args_dtype.
  - unfold glob1. destruct (ishidden _); repeat apply NoDup_filter; done.
Qed.

(** X18: getting through a file changes one row of the running summary,
    the one of its window id, which becomes the row computed from the
    file; the rows of the other window ids stay as they were, and the
    table grows by that row only when the window id is new. *)
Theorem body_changes_one_row out_stats f log out_stats' log' :
  process_file w args out_stats f log = (Ok out_stats', log') →
  ∃ wdw,
    re_search (Args.dtype args) f = Some wdw
    ∧ loc_get wdw out_stats' = Some (file_summary w args f wdw)
    ∧ (∀ k, k ≠ wdw → loc_get k out_stats' = loc_get k out_stats)
    ∧ index_of out_stats'
      = (if bool_decide (wdw ∈ index_of out_stats) then index_of out_stats
         else index_of out_stats ++ [wdw]).
Proof.
  rewrite process_file_unfold.
  destruct (re_search (Args.dtype args) f) as [wdw|]; [|done].
  case_decide; [done|]. intros [= <- <-]. exists wdw. split_and!.
  - done.
  - apply loc_get_loc_set.
  - intros k Hk. by apply loc_get_loc_set_ne.
  - apply index_of_loc_set.
Qed.

End Once.

Lemma discover_NoDup_witness :
  NoDup (discover (Example.world ["ACC5_reduced.csv"; "ACC10_reduced.csv"])
           Example.args).
Proof.
  apply (discover_NoDup (Example.world ["ACC5_reduced.csv"; "ACC10_reduced.csv"])
           Example.args Example_args_valid).
  - reflexivity.
  - apply (bool_decide_unpack _). vm_compute. exact I.
Defined.

Lemma body_changes_one_row_witness :
  ∃ wdw,
    loc_get wdw
      (step (Example.world []) Example.args [FrameRow "10" []]
         "in/ACC5_reduced.csv")
    = Some (file_summary (Example.world []) Example.args
              "in/ACC5_reduced.csv" wdw)
    ∧ loc_get "10"
        (step (Example.world []) Example.args [FrameRow "10" []]
           "in/ACC5_reduced.csv")
      = Some [].
Proof.
  destruct (body_changes_one_row (Example.world []) Example.args
              [FrameRow "10" []] "in/ACC5_reduced.csv" []
              (step (Example.world []) Example.args [FrameRow "10" []]
                 "in/ACC5_reduced.csv")
              ([] ++ file_events (Example.world []) Example.args
                       "in/ACC5_reduced.csv" "5"))
    as (wdw & Hwdw & Hrow & Hother & _).
  { rewrite process_file_unfold. reflexivity. }
  exists wdw. split; [exact Hrow|].
  rewrite Hother; [reflexivity|].
  injection Hwdw as <-. done.
Defined.

Lemma no_file_empty_summary_witness :
  main (Example.world ["IMM5_reduced.csv"]) Example.args []
  = (Ok tt, [] ++ [Eglob (glob_pattern Example.args);
                   Eto_csv (summary_path Example.args) true []]).
Proof.
  apply (no_file_empty_summary (Example.world ["IMM5_reduced.csv"])
           Example.args [] Example_args_valid).
  intros d name _ Hname [mid Hmid].
  apply list_elem_of_singleton in Hname. subst name.
  vm_compute in Hmid. discriminate.
Defined.
